(** * PROJECT-VICTUS: the browser session controller (static/script.js)

    A shallow embedding of the page script: the session token, the voice
    recorder, the four remote operations (chat, transcribe, synthesize,
    upload), the transcript and the loading indicator.

    The script is event driven.  Every [async] function is cut at its
    [await]s: the part that runs synchronously is a function on [state], and
    what remains is a [task] parked in [pending] until the browser settles the
    awaited promise ([Resume]).  Browser inputs (gestures, promise
    settlements, recorder events) are the [event]s of [step]. *)

From Stdlib Require Import NArith String Ascii List Lia.
From stdpp Require Import base option list gmap.

Local Open Scope N_scope.
Set Warnings "-register-all".

(** ** JavaScript strings and values *)

(** A JavaScript string is a sequence of UTF-16 code units. *)
Abbreviation jstring := (list N).

Fixpoint lit (s : string) : jstring :=
  match s with
  | EmptyString => []
  | String c r => N_of_ascii c :: lit r
  end.

(** [WhiteSpace] and [LineTerminator] code points, what [String.prototype.trim]
    strips. *)
Definition is_space (c : N) : bool :=
  (c =? 9) || (c =? 10) || (c =? 11) || (c =? 12) || (c =? 13) || (c =? 32)
  || (c =? 160) || (c =? 5760) || ((8192 <=? c) && (c <=? 8202))
  || (c =? 8232) || (c =? 8233) || (c =? 8239) || (c =? 8287)
  || (c =? 12288) || (c =? 65279).

Fixpoint trimStart (s : jstring) : jstring :=
  match s with
  | [] => []
  | c :: r => if is_space c then trimStart r else s
  end.

Definition trimEnd (s : jstring) : jstring := rev (trimStart (rev s)).

Definition trim (s : jstring) : jstring := trimEnd (trimStart s).

(** [String.prototype.substr(start, length)] for non-negative arguments. *)
Definition substr (start len : nat) (s : jstring) : jstring :=
  take len (drop start s).

(** Decimal rendering of a non-negative integer, as a template literal prints
    [Date.now()]. *)
Fixpoint uint_units (d : Decimal.uint) : jstring :=
  match d with
  | Decimal.Nil => []
  | Decimal.D0 r => 48 :: uint_units r
  | Decimal.D1 r => 49 :: uint_units r
  | Decimal.D2 r => 50 :: uint_units r
  | Decimal.D3 r => 51 :: uint_units r
  | Decimal.D4 r => 52 :: uint_units r
  | Decimal.D5 r => 53 :: uint_units r
  | Decimal.D6 r => 54 :: uint_units r
  | Decimal.D7 r => 55 :: uint_units r
  | Decimal.D8 r => 56 :: uint_units r
  | Decimal.D9 r => 57 :: uint_units r
  end.

Definition decimal (n : N) : jstring := uint_units (N.to_uint n).

(** [hay.includes(needle)] as a proposition. *)
Definition Contains (needle hay : jstring) : Prop :=
  exists pre post, hay = pre ++ needle ++ post.

(** The values [response.json()] can produce, plus [undefined] (a missing
    property).  A number is kept as its [ToString] rendering. *)
Inductive jsval : Type :=
| VUndefined
| VNull
| VBool (b : bool)
| VNumber (shown : jstring)
| VString (s : jstring)
| VArray (items : list jsval)
| VObject (props : list (jstring * jsval)).

Definition jstring_eqb (a b : jstring) : bool := bool_decide (a = b).

(** [ToBoolean]. *)
Definition truthy (v : jsval) : bool :=
  match v with
  | VUndefined | VNull => false
  | VBool b => b
  | VNumber shown =>
      negb (jstring_eqb shown (lit "0") || jstring_eqb shown (lit "NaN"))
  | VString s => match s with [] => false | _ => true end
  | VArray _ | VObject _ => true
  end.

(** [ToString]. *)
Fixpoint ToString (v : jsval) : jstring :=
  match v with
  | VUndefined => lit "undefined"
  | VNull => lit "null"
  | VBool true => lit "true"
  | VBool false => lit "false"
  | VNumber shown => shown
  | VString s => s
  | VArray items =>
      (fix join (l : list jsval) : jstring :=
         match l with
         | [] => []
         | x :: r =>
             let shown := match x with
                          | VUndefined | VNull => []
                          | _ => ToString x
                          end in
             match r with
             | [] => shown
             | _ => shown ++ 44 :: join r
             end
         end) items
  | VObject _ => lit "[object Object]"
  end.

(** [a || b]. *)
Definition or_else (a b : jsval) : jsval := if truthy a then a else b.

(** Conversion to a [DOMString] attribute declared [LegacyNullToEmptyString]
    (the [value] of a text control). *)
Definition toDOMString (v : jsval) : jstring :=
  match v with
  | VNull => []
  | _ => ToString v
  end.

(** What [textContent = v] displays. *)
Definition textContent (v : jsval) : jstring :=
  match v with
  | VUndefined | VNull => []
  | _ => ToString v
  end.

(** Outcome of evaluating an expression or a block: a value, or a thrown
    error, of which the script only ever reads [message]. *)
Inductive completion (A : Type) : Type :=
| Normal (a : A)
| Throw (message : jstring).
Arguments Normal {A} a.
Arguments Throw {A} message.

Fixpoint assoc (name : jstring) (props : list (jstring * jsval)) : option jsval :=
  match props with
  | [] => None
  | (k, v) :: r => if jstring_eqb k name then Some v else assoc name r
  end.

(** What is fixed by the browser for one page load: whether
    [navigator.mediaDevices.getUserMedia] exists, and the text of the
    [TypeError] raised by reading a property of [null] or [undefined]
    (engine specific; it is given the base value, the source expression of
    the base and the property name). *)
Record platform : Type := {
  has_getUserMedia : bool;
  nullish_read_text : jsval -> jstring -> jstring -> jstring
}.

(** [base.name], for the property names the script reads ([detail],
    [response], [transcription], [audio_url]): own properties of an object,
    [undefined] on primitives and arrays, a [TypeError] on [null] and
    [undefined]. *)
Definition Get (p : platform) (expr : string) (base : jsval) (name : string)
  : completion jsval :=
  match base with
  | VUndefined | VNull => Throw (nullish_read_text p base (lit expr) (lit name))
  | VObject props =>
      Normal (match assoc (lit name) props with
              | Some v => v
              | None => VUndefined
              end)
  | _ => Normal VUndefined
  end.

(** ** The page state *)

Inductive Sender : Type := User | AI.

(** A rendered message: the value handed to [addMessageToChat] (also what its
    speaker button passes to [speakText]) and the sender class. *)
Record Message : Type := { text : jsval; sender : Sender }.

Abbreviation blob := (list N).

Record file : Type := { name : jstring; content : blob }.

(** Requests sent with [fetch]. *)
Inductive request : Type :=
| PostChat (message session_id : jstring)
| PostTranscribe (chunks : list blob)
| PostSynthesize (spoken : jsval)
| PostUpload (f : file).

(** Everything the script does to the outside, in the order it does it. *)
Inductive action : Type :=
| Rendered (m : Message)
| Fetch (req : request)
| GetUserMedia
| Alert (notice : jstring)
| ConsoleError (label message : jstring)
| PlayAudio (src : jsval).

(** [loadingIndicator.style.display]: not yet assigned by the script, or one
    of the two values it assigns. *)
Inductive display : Type := FromMarkup (shown : bool) | Flex | Hidden.

(** The busy signal: the loading indicator is displayed. *)
Definition is_busy (d : display) : bool :=
  match d with
  | FromMarkup shown => shown
  | Flex => true
  | Hidden => false
  end.

(** [MediaRecorder.state]; the script never pauses a recorder. *)
Inductive recorder : Type := RecInactive | RecRecording.

(** The suspended [async] functions: each constructor is an [await] of the
    script, with the locals the rest of the function still reads. *)
Inductive task : Type :=
| StartRecording_getUserMedia
| Transcribe_fetch
| Transcribe_json
| Chat_fetch
| Chat_errorJson
| Chat_json
| Speak_fetch
| Speak_json
| Upload_fetch (f : file)
| Upload_json (f : file) (ok : bool).

Record state : Type := {
  host : platform;
  sessionId : jstring;
  mediaRecorder : option nat;   (* index into [recorders]; [None] is undefined *)
  recorders : list recorder;    (* the MediaRecorder objects created so far *)
  audioChunks : list blob;
  isRecording : bool;
  micBtn_recording : bool;      (* micBtn.classList has 'recording' *)
  messageInput_value : jstring;
  loadingIndicator : display;
  fileUpload_files : option file;   (* fileUpload.files[0] *)
  chatWindow : list Message;
  pending : gmap nat task;
  next_task : nat;
  trace : list action
}.

Definition busy (s : state) : bool := is_busy (loadingIndicator s).

Definition set_mediaRecorder (v : option nat) (s : state) : state :=
  {| host := host s; sessionId := sessionId s; mediaRecorder := v;
     recorders := recorders s; audioChunks := audioChunks s;
     isRecording := isRecording s; micBtn_recording := micBtn_recording s;
     messageInput_value := messageInput_value s;
     loadingIndicator := loadingIndicator s;
     fileUpload_files := fileUpload_files s; chatWindow := chatWindow s;
     pending := pending s; next_task := next_task s; trace := trace s |}.

Definition set_recorders (v : list recorder) (s : state) : state :=
  {| host := host s; sessionId := sessionId s; mediaRecorder := mediaRecorder s;
     recorders := v; audioChunks := audioChunks s;
     isRecording := isRecording s; micBtn_recording := micBtn_recording s;
     messageInput_value := messageInput_value s;
     loadingIndicator := loadingIndicator s;
     fileUpload_files := fileUpload_files s; chatWindow := chatWindow s;
     pending := pending s; next_task := next_task s; trace := trace s |}.

Definition set_audioChunks (v : list blob) (s : state) : state :=
  {| host := host s; sessionId := sessionId s; mediaRecorder := mediaRecorder s;
     recorders := recorders s; audioChunks := v;
     isRecording := isRecording s; micBtn_recording := micBtn_recording s;
     messageInput_value := messageInput_value s;
     loadingIndicator := loadingIndicator s;
     fileUpload_files := fileUpload_files s; chatWindow := chatWindow s;
     pending := pending s; next_task := next_task s; trace := trace s |}.

(** [isRecording = v] together with the button's 'recording' class, which the
    script always changes with it. *)
Definition set_isRecording (v : bool) (s : state) : state :=
  {| host := host s; sessionId := sessionId s; mediaRecorder := mediaRecorder s;
     recorders := recorders s; audioChunks := audioChunks s;
     isRecording := v; micBtn_recording := v;
     messageInput_value := messageInput_value s;
     loadingIndicator := loadingIndicator s;
     fileUpload_files := fileUpload_files s; chatWindow := chatWindow s;
     pending := pending s; next_task := next_task s; trace := trace s |}.

Definition set_messageInput (v : jstring) (s : state) : state :=
  {| host := host s; sessionId := sessionId s; mediaRecorder := mediaRecorder s;
     recorders := recorders s; audioChunks := audioChunks s;
     isRecording := isRecording s; micBtn_recording := micBtn_recording s;
     messageInput_value := v;
     loadingIndicator := loadingIndicator s;
     fileUpload_files := fileUpload_files s; chatWindow := chatWindow s;
     pending := pending s; next_task := next_task s; trace := trace s |}.

Definition set_display (v : display) (s : state) : state :=
  {| host := host s; sessionId := sessionId s; mediaRecorder := mediaRecorder s;
     recorders := recorders s; audioChunks := audioChunks s;
     isRecording := isRecording s; micBtn_recording := micBtn_recording s;
     messageInput_value := messageInput_value s;
     loadingIndicator := v;
     fileUpload_files := fileUpload_files s; chatWindow := chatWindow s;
     pending := pending s; next_task := next_task s; trace := trace s |}.

Definition set_files (v : option file) (s : state) : state :=
  {| host := host s; sessionId := sessionId s; mediaRecorder := mediaRecorder s;
     recorders := recorders s; audioChunks := audioChunks s;
     isRecording := isRecording s; micBtn_recording := micBtn_recording s;
     messageInput_value := messageInput_value s;
     loadingIndicator := loadingIndicator s;
     fileUpload_files := v; chatWindow := chatWindow s;
     pending := pending s; next_task := next_task s; trace := trace s |}.

Definition set_chatWindow (v : list Message) (s : state) : state :=
  {| host := host s; sessionId := sessionId s; mediaRecorder := mediaRecorder s;
     recorders := recorders s; audioChunks := audioChunks s;
     isRecording := isRecording s; micBtn_recording := micBtn_recording s;
     messageInput_value := messageInput_value s;
     loadingIndicator := loadingIndicator s;
     fileUpload_files := fileUpload_files s; chatWindow := v;
     pending := pending s; next_task := next_task s; trace := trace s |}.

Definition set_pending (v : gmap nat task) (s : state) : state :=
  {| host := host s; sessionId := sessionId s; mediaRecorder := mediaRecorder s;
     recorders := recorders s; audioChunks := audioChunks s;
     isRecording := isRecording s; micBtn_recording := micBtn_recording s;
     messageInput_value := messageInput_value s;
     loadingIndicator := loadingIndicator s;
     fileUpload_files := fileUpload_files s; chatWindow := chatWindow s;
     pending := v; next_task := next_task s; trace := trace s |}.

Definition set_next_task (v : nat) (s : state) : state :=
  {| host := host s; sessionId := sessionId s; mediaRecorder := mediaRecorder s;
     recorders := recorders s; audioChunks := audioChunks s;
     isRecording := isRecording s; micBtn_recording := micBtn_recording s;
     messageInput_value := messageInput_value s;
     loadingIndicator := loadingIndicator s;
     fileUpload_files := fileUpload_files s; chatWindow := chatWindow s;
     pending := pending s; next_task := v; trace := trace s |}.

Definition set_trace (v : list action) (s : state) : state :=
  {| host := host s; sessionId := sessionId s; mediaRecorder := mediaRecorder s;
     recorders := recorders s; audioChunks := audioChunks s;
     isRecording := isRecording s; micBtn_recording := micBtn_recording s;
     messageInput_value := messageInput_value s;
     loadingIndicator := loadingIndicator s;
     fileUpload_files := fileUpload_files s; chatWindow := chatWindow s;
     pending := pending s; next_task := next_task s; trace := v |}.

Definition emit (a : action) (s : state) : state :=
  set_trace (trace s ++ [a]) s.

Definition alert (notice : string) (s : state) : state :=
  emit (Alert (lit notice)) s.

Definition console_error (label : string) (message : jstring) (s : state) : state :=
  emit (ConsoleError (lit label) message) s.

(** An [await] reached by a function that has just been called: the rest of
    the function is parked under a fresh task number. *)
Definition suspend (t : task) (s : state) : state :=
  set_next_task (S (next_task s)) (set_pending (<[next_task s := t]> (pending s)) s).

(** A later [await] of a task that is already running as [tid]. *)
Definition park (tid : nat) (t : task) (s : state) : state :=
  set_pending (<[tid := t]> (pending s)) s.

(** ** Session identity (script lines 10-17) *)

(** [localStorage]: its items, and the error each kind of access raises when
    the browser refuses it (blocked storage, exceeded quota). *)
Record localStorage : Type := {
  items : gmap jstring jstring;
  getItem_error : option jstring;
  setItem_error : option jstring
}.

Definition getItem (key : string) (st : localStorage) : completion (option jstring) :=
  match getItem_error st with
  | Some m => Throw m
  | None => Normal (items st !! lit key)
  end.

Definition setItem (key : string) (v : jstring) (st : localStorage)
  : completion localStorage :=
  match setItem_error st with
  | Some m => Throw m
  | None => Normal {| items := <[lit key := v]> (items st);
                      getItem_error := getItem_error st;
                      setItem_error := setItem_error st |}
  end.

(** What the page load reads from its surroundings: the storage, the browser,
    [Date.now()], the rendering [Math.random().toString(36)], and whether the
    markup shows the loading indicator before any script runs. *)
Record environment : Type := {
  storage : localStorage;
  browser : platform;
  now : N;
  random36 : jstring;
  indicator_shown : bool
}.

(** [`sess_${Date.now()}_${Math.random().toString(36).substr(2, 9)}`] *)
Definition new_session_id (e : environment) : jstring :=
  lit "sess_" ++ decimal (now e) ++ lit "_" ++ substr 2 9 (random36 e).

(** Lines 10-17: the token and the [isNewSession] flag, with the storage as
    the script leaves it. *)
Definition getOrCreate (e : environment)
  : completion (jstring * bool * localStorage) :=
  match getItem "victus_session_id" (storage e) with
  | Throw m => Throw m
  | Normal stored =>
      match stored with
      | Some (c :: r) => Normal (c :: r, false, storage e)
      | _ =>
          let sessionId := new_session_id e in
          match setItem "victus_session_id" sessionId (storage e) with
          | Throw m => Throw m
          | Normal st => Normal (sessionId, true, st)
          end
      end
  end.

(** ** Rendering (lines 129-158) *)

Definition addMessageToChat (message : jsval) (by_ : Sender) (s : state) : state :=
  let m := {| text := message; sender := by_ |} in
  emit (Rendered m) (set_chatWindow (chatWindow s ++ [m]) s).

Definition greeting : jstring :=
  lit "Hello! I'm VICTUS, your personal AI assistant. How can I help you today?".

(** The [DOMContentLoaded] handler: session identity, handler registration
    (no state of its own), and the greeting of a new session.  A throw in
    lines 10-17 leaves the handler before any listener is registered. *)
Definition boot (e : environment) : completion (state * localStorage) :=
  match getOrCreate e with
  | Throw m => Throw m
  | Normal (sid, isNewSession, st) =>
      let s := {| host := browser e; sessionId := sid; mediaRecorder := None;
                  recorders := []; audioChunks := []; isRecording := false;
                  micBtn_recording := false; messageInput_value := [];
                  loadingIndicator := FromMarkup (indicator_shown e);
                  fileUpload_files := None; chatWindow := [];
                  pending := ∅; next_task := 0%nat; trace := [] |} in
      Normal (if isNewSession then addMessageToChat (VString greeting) AI s else s,
              st)
  end.

(** ** Voice recording (lines 19-59) *)

(** How the three statements after the stream is granted can go:
    [new MediaRecorder(stream)] and [mediaRecorder.start()] may each throw. *)
Inductive recorder_setup : Type :=
| SetupOk
| ConstructorThrows (message : jstring)
| StartThrows (message : jstring).

(** How the browser settles an awaited promise. *)
Inductive settlement : Type :=
| StreamGranted (setup : recorder_setup)
| StreamDenied (message : jstring)
| Responded (ok : bool)
| FetchFailed (message : jstring)
| BodyParsed (data : jsval)
| BodyFailed (message : jstring).

Definition startRecording (s : state) : state :=
  if negb (has_getUserMedia (host s))
  then alert "Your browser does not support audio recording." s
  else suspend StartRecording_getUserMedia (emit GetUserMedia s).

Definition startRecording_catch (message : jstring) (s : state) : state :=
  alert "Could not access microphone. Please grant permission."
    (console_error "Error accessing microphone:" message s).

(** [new MediaRecorder(stream)] with both handlers attached. *)
Definition new_MediaRecorder (s : state) : state :=
  set_mediaRecorder (Some (length (recorders s)))
    (set_recorders (recorders s ++ [RecInactive]) s).

Definition startRecording_resume (r : settlement) (s : state) : option state :=
  match r with
  | StreamGranted SetupOk =>
      let s1 := new_MediaRecorder s in
      let s2 := set_recorders (<[length (recorders s) := RecRecording]> (recorders s1)) s1 in
      Some (set_isRecording true s2)
  | StreamGranted (ConstructorThrows m) => Some (startRecording_catch m s)
  | StreamGranted (StartThrows m) => Some (startRecording_catch m (new_MediaRecorder s))
  | StreamDenied m => Some (startRecording_catch m s)
  | _ => None
  end.

Definition stopRecording (s : state) : state :=
  match mediaRecorder s with
  | None => s
  | Some rid =>
      match recorders s !! rid with
      | Some RecRecording =>
          set_isRecording false
            (set_recorders (<[rid := RecInactive]> (recorders s)) s)
      | _ => s
      end
  end.

(** The click handler of the microphone button. *)
Definition micBtn_click (s : state) : state :=
  if isRecording s then stopRecording s else startRecording s.

(** ** Chat (lines 96-127) *)

Definition chat_finally (s : state) : state := set_display Hidden s.

Definition chat_catch (message : jstring) (s : state) : state :=
  chat_finally
    (addMessageToChat (VString (lit "Error: " ++ message)) AI
       (console_error "Error sending message:" message s)).

(** The submit handler up to its first [await]. *)
Definition chatForm_submit (s : state) : state :=
  match trim (messageInput_value s) with
  | [] => s
  | message =>
      let s1 := addMessageToChat (VString message) User s in
      let s2 := set_messageInput [] s1 in
      let s3 := set_display Flex s2 in
      suspend Chat_fetch (emit (Fetch (PostChat message (sessionId s3))) s3)
  end.

Definition chat_fetch_resume (tid : nat) (r : settlement) (s : state) : option state :=
  match r with
  | Responded false => Some (park tid Chat_errorJson s)
  | Responded true => Some (park tid Chat_json s)
  | FetchFailed m => Some (chat_catch m s)
  | _ => None
  end.

Definition chat_errorJson_resume (r : settlement) (s : state) : option state :=
  match r with
  | BodyParsed errorData =>
      match Get (host s) "errorData" errorData "detail" with
      | Throw m => Some (chat_catch m s)
      | Normal detail =>
          Some (chat_catch
                  (ToString (or_else detail (VString (lit "An error occurred")))) s)
      end
  | BodyFailed m => Some (chat_catch m s)
  | _ => None
  end.

Definition chat_json_resume (r : settlement) (s : state) : option state :=
  match r with
  | BodyParsed data =>
      match Get (host s) "data" data "response" with
      | Throw m => Some (chat_catch m s)
      | Normal response => Some (chat_finally (addMessageToChat response AI s))
      end
  | BodyFailed m => Some (chat_catch m s)
  | _ => None
  end.

(** ** Transcription (lines 61-86) *)

Definition transcribe_finally (s : state) : state := set_display Hidden s.

Definition transcribe_catch (message : jstring) (s : state) : state :=
  transcribe_finally
    (addMessageToChat (VString (lit "Error transcribing audio.")) AI
       (console_error "Error during transcription:" message s)).

(** [mediaRecorder.onstop], up to its first [await]. *)
Definition sendAudioForTranscription (s : state) : state :=
  match audioChunks s with
  | [] => s
  | chunks =>
      let s1 := set_display Flex s in
      let s2 := set_audioChunks [] s1 in
      suspend Transcribe_fetch (emit (Fetch (PostTranscribe chunks)) s2)
  end.

Definition transcribe_fetch_resume (tid : nat) (r : settlement) (s : state)
  : option state :=
  match r with
  | Responded true => Some (park tid Transcribe_json s)
  | Responded false => Some (transcribe_catch (lit "Transcription failed") s)
  | FetchFailed m => Some (transcribe_catch m s)
  | _ => None
  end.

(** Lines 77-79, then [finally]: the dispatched submit event runs the chat
    handler up to its first [await] before [dispatchEvent] returns. *)
Definition transcribe_json_resume (r : settlement) (s : state) : option state :=
  match r with
  | BodyParsed data =>
      match Get (host s) "data" data "transcription" with
      | Throw m => Some (transcribe_catch m s)
      | Normal transcription =>
          let s1 := set_messageInput (toDOMString transcription) s in
          Some (transcribe_finally (chatForm_submit s1))
      end
  | BodyFailed m => Some (transcribe_catch m s)
  | _ => None
  end.

(** ** Speech synthesis (lines 160-180) *)

Definition speak_finally (s : state) : state := set_display Hidden s.

Definition speak_catch (message : jstring) (s : state) : state :=
  speak_finally
    (alert "Could not play audio." (console_error "Error in TTS:" message s)).

Definition speakText (spoken : jsval) (s : state) : state :=
  let s1 := set_display Flex s in
  suspend Speak_fetch (emit (Fetch (PostSynthesize spoken)) s1).

Definition speak_fetch_resume (tid : nat) (r : settlement) (s : state)
  : option state :=
  match r with
  | Responded true => Some (park tid Speak_json s)
  | Responded false => Some (speak_catch (lit "Speech synthesis failed") s)
  | FetchFailed m => Some (speak_catch m s)
  | _ => None
  end.

(** [audio.play()] is called and its promise dropped: nothing of the
    playback comes back to the script. *)
Definition speak_json_resume (r : settlement) (s : state) : option state :=
  match r with
  | BodyParsed data =>
      match Get (host s) "data" data "audio_url" with
      | Throw m => Some (speak_catch m s)
      | Normal audio_url => Some (speak_finally (emit (PlayAudio audio_url) s))
      end
  | BodyFailed m => Some (speak_catch m s)
  | _ => None
  end.

(** ** File upload (lines 182-214) *)

Definition upload_finally (s : state) : state :=
  set_files None (set_display Hidden s).

Definition upload_catch (message : jstring) (s : state) : state :=
  upload_finally
    (addMessageToChat (VString (lit "Error: " ++ message)) AI
       (console_error "Error uploading file:" message s)).

(** The text of line 202; code unit 34 is the double quote. *)
Definition upload_success_text (f : file) : jstring :=
  lit "Successfully uploaded and indexed " ++ [34] ++ name f ++ [34]
  ++ lit ". You can now ask questions about it.".

(** The change handler up to its first [await]. *)
Definition fileUpload_change (s : state) : state :=
  match fileUpload_files s with
  | None => s
  | Some f =>
      let s1 := set_display Flex s in
      suspend (Upload_fetch f) (emit (Fetch (PostUpload f)) s1)
  end.

Definition upload_fetch_resume (tid : nat) (f : file) (r : settlement) (s : state)
  : option state :=
  match r with
  | Responded ok => Some (park tid (Upload_json f ok) s)
  | FetchFailed m => Some (upload_catch m s)
  | _ => None
  end.

Definition upload_json_resume (f : file) (ok : bool) (r : settlement) (s : state)
  : option state :=
  match r with
  | BodyParsed data =>
      if ok
      then Some (upload_finally
                   (addMessageToChat (VString (upload_success_text f)) AI s))
      else
        match Get (host s) "data" data "detail" with
        | Throw m => Some (upload_catch m s)
        | Normal detail =>
            Some (upload_catch
                    (ToString (or_else detail (VString (lit "Upload failed")))) s)
        end
  | BodyFailed m => Some (upload_catch m s)
  | _ => None
  end.

(** ** The event loop *)

(** What the browser delivers to the page. *)
Inductive event : Type :=
| MicClick
| Input (typed : jstring)              (* the user edits the message box *)
| Submit                               (* the form is submitted *)
| KeyDown (key : jstring) (shiftKey : bool)
| UploadClick
| FileChange (picked : option file)    (* the file picker changes its selection *)
| SpeakerClick (i : nat)               (* speaker button of the i-th message *)
| Resume (tid : nat) (r : settlement)  (* an awaited promise settles *)
| DataAvailable (rid : nat) (data : blob)
| RecorderStop (rid : nat).

(** The rest of a suspended function, run when its promise settles. *)
Definition resume (tid : nat) (t : task) (r : settlement) (s : state) : option state :=
  match t with
  | StartRecording_getUserMedia => startRecording_resume r s
  | Transcribe_fetch => transcribe_fetch_resume tid r s
  | Transcribe_json => transcribe_json_resume r s
  | Chat_fetch => chat_fetch_resume tid r s
  | Chat_errorJson => chat_errorJson_resume r s
  | Chat_json => chat_json_resume r s
  | Speak_fetch => speak_fetch_resume tid r s
  | Speak_json => speak_json_resume r s
  | Upload_fetch f => upload_fetch_resume tid f r s
  | Upload_json f ok => upload_json_resume f ok r s
  end.

(** One turn of the event loop; [None] when the browser cannot deliver the
    event in this state (no such task, recorder or speaker button, or a
    settlement of the wrong kind). *)
Definition step (s : state) (e : event) : option state :=
  match e with
  | MicClick => Some (micBtn_click s)
  | Input typed => Some (set_messageInput typed s)
  | Submit => Some (chatForm_submit s)
  | KeyDown key shiftKey =>
      if jstring_eqb key (lit "Enter") && negb shiftKey
      then Some (chatForm_submit s)
      else Some s
  | UploadClick => Some s
  | FileChange picked => Some (fileUpload_change (set_files picked s))
  | SpeakerClick i =>
      match chatWindow s !! i with
      | Some {| text := message; sender := AI |} => Some (speakText message s)
      | _ => None
      end
  | Resume tid r =>
      match pending s !! tid with
      | Some t => resume tid t r (set_pending (delete tid (pending s)) s)
      | None => None
      end
  | DataAvailable rid data =>
      match recorders s !! rid with
      | Some _ => Some (set_audioChunks (audioChunks s ++ [data]) s)
      | None => None
      end
  | RecorderStop rid =>
      match recorders s !! rid with
      | Some _ =>
          Some (sendAudioForTranscription
                  (set_recorders (<[rid := RecInactive]> (recorders s)) s))
      | None => None
      end
  end.

Fixpoint run (s : state) (es : list event) : option state :=
  match es with
  | [] => Some s
  | e :: rest =>
      match step s e with
      | Some s' => run s' rest
      | None => None
      end
  end.

(** The four remote operations, as opposed to the device request. *)
Definition is_operation (t : task) : bool :=
  match t with
  | StartRecording_getUserMedia => false
  | _ => true
  end.

(** Number of recorders that are capturing. *)
Definition is_capturing (r : recorder) : bool :=
  match r with
  | RecRecording => true
  | RecInactive => false
  end.

Definition capturing (s : state) : nat :=
  length (List.filter is_capturing (recorders s)).

(** ** Concrete pages used in the examples *)

(** A Chromium-like browser. *)
Definition chrome : platform :=
  {| has_getUserMedia := true;
     nullish_read_text := fun base _ prop =>
       lit "Cannot read properties of " ++ ToString base
       ++ lit " (reading '" ++ prop ++ lit "')" |}.

Definition stored_token : jstring := lit "sess_1700000000000_k3j5h2l9q".

(** A returning visitor: the token is already stored. *)
Definition returning_visit : environment :=
  {| storage := {| items := {[ lit "victus_session_id" := stored_token ]};
                   getItem_error := None; setItem_error := None |};
     browser := chrome; now := 1700000360000;
     random36 := lit "0.7gq2m4x8c1d"; indicator_shown := false |}.

(** A first visit with working storage. *)
Definition first_visit : environment :=
  {| storage := {| items := ∅; getItem_error := None; setItem_error := None |};
     browser := chrome; now := 1700000000000;
     random36 := lit "0.k3j5h2l9qpz"; indicator_shown := false |}.

(** A visit where the browser refuses access to the storage. *)
Definition blocked_storage_visit : environment :=
  {| storage := {| items := ∅;
                   getItem_error := Some (lit "The operation is insecure.");
                   setItem_error := Some (lit "The operation is insecure.") |};
     browser := chrome; now := 1700000000000;
     random36 := lit "0.k3j5h2l9qpz"; indicator_shown := false |}.

(** A first visit where the storage can be read but is full. *)
Definition full_storage_visit : environment :=
  {| storage := {| items := ∅; getItem_error := None;
                   setItem_error := Some (lit "The quota has been exceeded.") |};
     browser := chrome; now := 1700000000000;
     random36 := lit "0.k3j5h2l9qpz"; indicator_shown := false |}.

(** The page of the returning visitor once loaded: empty transcript. *)
Definition page : state :=
  {| host := chrome; sessionId := stored_token; mediaRecorder := None;
     recorders := []; audioChunks := []; isRecording := false;
     micBtn_recording := false; messageInput_value := [];
     loadingIndicator := FromMarkup false;
     fileUpload_files := None; chatWindow := [];
     pending := ∅; next_task := 0%nat; trace := [] |}.

Definition notes_pdf : file := {| name := lit "notes.pdf"; content := [37; 80; 68; 70] |}.

(** ** Predicates and scenarios of the properties *)



Definition is_speak_task (t : task) : bool :=
  match t with
  | Speak_fetch | Speak_json => true
  | _ => false
  end.

Definition is_upload_task (t : task) : bool :=
  match t with
  | Upload_fetch _ | Upload_json _ _ => true
  | _ => false
  end.

(** Task numbers in use are below the next one to be handed out. *)
Definition Fresh (p : gmap nat task) (n : nat) : Prop :=
  forall tid t, p !! tid = Some t -> (tid < n)%nat.

(** At least one of the four remote operations is in flight. *)
Definition Outstanding (p : gmap nat task) : Prop :=
  exists tid t, p !! tid = Some t /\ is_operation t = true.

(** The indicator is only ever displayed while an operation is in flight. *)
Definition busy_inv (s : state) : Prop :=
  Fresh (pending s) (next_task s) /\ (busy s = true -> Outstanding (pending s)).

(** A chat and an upload overlap; the upload fails first, the chat succeeds
    last. *)
Definition overlapping_chat_and_upload : list event :=
  [ Input (lit "Hello"); Submit; FileChange (Some notes_pdf);
    Resume 0%nat (Responded true);
    Resume 1%nat (FetchFailed (lit "Failed to fetch"));
    Resume 0%nat (BodyParsed (VObject [(lit "response", VString (lit "Hi!"))])) ].

(** A recording of one fragment, stopped, transcribed with a success status:
    the transcribe task is about to read its body. *)
Definition dictation : list event :=
  [ MicClick; Resume 0%nat (StreamGranted SetupOk); MicClick;
    DataAvailable 0%nat [26; 69; 223; 163]; RecorderStop 0%nat;
    Resume 1%nat (Responded true) ].

Definition hello_transcription : jsval :=
  VObject [(lit "transcription", VString (lit "Hello"))].

(** A device request is parked: [startRecording] is waiting for the stream. *)
Definition awaiting_device (s : state) : bool :=
  existsb (fun kt => negb (is_operation (snd kt))) (map_to_list (pending s)).

(** No click on the microphone arrives while a device request is parked. *)
Fixpoint unhurried (s : state) (es : list event) : bool :=
  match es with
  | [] => true
  | e :: rest =>
      match e with
      | MicClick => negb (awaiting_device s)
      | _ => true
      end
      && match step s e with
         | Some s' => unhurried s' rest
         | None => true
         end
  end.

(** Every device request of [p'] is one of [p]. *)
Definition Requests_sub (p' p : gmap nat task) : Prop :=
  forall tid, p' !! tid = Some StartRecording_getUserMedia ->
              p !! tid = Some StartRecording_getUserMedia.

(** What the toggle maintains: a recorder that is recording is the one
    [mediaRecorder] points to, with [isRecording] set; while a device request
    is parked [isRecording] is clear; and at most one request is parked. *)
Definition recording_inv (s : state) : Prop :=
  (forall rid, recorders s !! rid = Some RecRecording ->
               mediaRecorder s = Some rid /\ isRecording s = true) /\
  (forall tid, pending s !! tid = Some StartRecording_getUserMedia ->
               isRecording s = false) /\
  (forall t1 t2, pending s !! t1 = Some StartRecording_getUserMedia ->
                 pending s !! t2 = Some StartRecording_getUserMedia -> t1 = t2).

(** A page that is capturing: one click, stream granted. *)
Definition capturing_page : state :=
  set_isRecording true
    (set_mediaRecorder (Some 0%nat)
       (set_recorders [RecRecording]
          (set_next_task 1%nat (set_trace [GetUserMedia] page)))).

(** Record, stop, and record again, each click after the previous request was
    answered. *)
Definition two_recordings : list event :=
  [ MicClick; Resume 0%nat (StreamGranted SetupOk); MicClick;
    DataAvailable 0%nat [26; 69; 223; 163]; RecorderStop 0%nat;
    MicClick; Resume 2%nat (StreamGranted SetupOk) ].

(** ** Observations on transcripts and traces *)

(** The texts of the user Messages of a transcript, in order. *)
Fixpoint user_texts (ms : list Message) : list jsval :=
  match ms with
  | [] => []
  | m :: r =>
      match sender m with
      | User => text m :: user_texts r
      | AI => user_texts r
      end
  end.

(** The chat requests of a trace, in order: message and session id. *)
Fixpoint chat_requests (tr : list action) : list (jstring * jstring) :=
  match tr with
  | [] => []
  | Fetch (PostChat m sid) :: r => (m, sid) :: chat_requests r
  | _ :: r => chat_requests r
  end.

(** What leaves the page towards the network or the device. *)
Definition outbound (a : action) : bool :=
  match a with
  | Fetch _ | GetUserMedia => true
  | _ => false
  end.


(** The transcription a settlement delivers to lines 77-78, if any. *)
Definition transcription_of (p : platform) (r : settlement) : option jsval :=
  match r with
  | BodyParsed data =>
      match Get p "data" data "transcription" with
      | Normal v => Some v
      | Throw _ => None
      end
  | _ => None
  end.

(** The error a settlement of [getUserMedia] hands to the [catch] of
    [startRecording], if any. *)
Definition start_failure (r : settlement) : option jstring :=
  match r with
  | StreamDenied m => Some m
  | StreamGranted (ConstructorThrows m) => Some m
  | StreamGranted (StartThrows m) => Some m
  | _ => None
  end.

(** The toggle is wedged: [isRecording] is set, the recorder it would stop
    is already inactive, and no device request is parked. *)
Definition wedged (s : state) (rid : nat) : Prop :=
  isRecording s = true /\ mediaRecorder s = Some rid /\
  recorders s !! rid = Some RecInactive /\
  forall tid, pending s !! tid <> Some StartRecording_getUserMedia.

(** What every run from page load keeps: the user Messages are exactly the
    messages of the chat requests sent, and each request carries a trimmed,
    non-empty message and the page's token. *)
Definition chat_inv (s : state) : Prop :=
  user_texts (chatWindow s) = map (fun p => VString (fst p)) (chat_requests (trace s)) /\
  Forall (fun p => fst p <> [] /\ trim (fst p) = fst p /\ snd p = sessionId s)
         (chat_requests (trace s)).

(** The recorder ended on its own while the page was capturing. *)
Definition recorder_ended_by_browser : list event :=
  [ MicClick; Resume 0%nat (StreamGranted SetupOk); RecorderStop 0%nat ].

Definition slides_pptx : file :=
  {| name := lit "slides.pptx"; content := [80; 75; 3; 4] |}.

(** The visit after [first_visit]: same browser, the storage it left. *)
Definition second_visit : environment :=
  {| storage := {| items := {[ lit "victus_session_id"
                                := lit "sess_1700000000000_k3j5h2l9q" ]};
                   getItem_error := None; setItem_error := None |};
     browser := chrome; now := 1700000999000;
     random36 := lit "0.zzzzzzzzzzz"; indicator_shown := false |}.

(** The page after [recorder_ended_by_browser]. *)
Definition wedged_page : state := set_recorders [RecInactive] capturing_page.

(** A chat and an upload in flight, both still waiting for their status. *)
Definition chat_and_upload_in_flight : state :=
  park 1%nat (Upload_fetch notes_pdf)
    (park 0%nat Chat_fetch (set_next_task 2%nat (set_display Flex page))).

(** The device requests among the actions of a trace. *)
Definition asks_device (a : action) : bool :=
  match a with
  | GetUserMedia => true
  | _ => false
  end.

(** A page load on which recording cannot start: no recorder exists,
    [isRecording] is clear and no device request is parked. *)
Definition never_recording (s : state) : Prop :=
  has_getUserMedia (host s) = false /\ isRecording s = false /\
  recorders s = [] /\
  (forall tid, pending s !! tid <> Some StartRecording_getUserMedia) /\
  List.filter asks_device (trace s) = [].

(** A browser without [navigator.mediaDevices.getUserMedia]. *)
Definition legacy_browser : platform :=
  {| has_getUserMedia := false;
     nullish_read_text := fun base expr prop =>
       lit "null is not an object (evaluating '" ++ expr ++ lit "." ++ prop
       ++ lit "')" |}.

(** The returning visitor on that browser, and the page once loaded. *)
Definition legacy_visit : environment :=
  {| storage := storage returning_visit; browser := legacy_browser;
     now := 1700000360000; random36 := lit "0.7gq2m4x8c1d";
     indicator_shown := false |}.

Definition legacy_page : state :=
  {| host := legacy_browser; sessionId := stored_token; mediaRecorder := None;
     recorders := []; audioChunks := []; isRecording := false;
     micBtn_recording := false; messageInput_value := [];
     loadingIndicator := FromMarkup false;
     fileUpload_files := None; chatWindow := [];
     pending := ∅; next_task := 0%nat; trace := [] |}.

(** A page whose only Message is an assistant reply. *)
Definition page_with_reply : state :=
  set_chatWindow [{| text := VString (lit "Hi!"); sender := AI |}] page.

Definition speech_body : jsval :=
  VObject [(lit "audio_url", VString (lit "/static/audio/reply.wav"))].

(** ** Basic facts *)

Example trim_strips_both_ends : trim (lit "  a b  ") = lit "a b".
Proof. reflexivity. Qed.

Example trim_line_breaks_only : trim [10; 13; 9; 160] = [].
Proof. reflexivity. Qed.

Example ToString_of_array :
  ToString (VArray [VNumber (lit "1"); VNull; VString (lit "x")]) = lit "1,,x".
Proof. reflexivity. Qed.

Example first_visit_token :
  new_session_id first_visit = lit "sess_1700000000000_k3j5h2l9q".
Proof. reflexivity. Qed.

Example empty_detail_is_generic :
  ToString (or_else (VString []) (VString (lit "An error occurred")))
  = lit "An error occurred".
Proof. reflexivity. Qed.



Lemma page_is_booted : boot returning_visit = Normal (page, storage returning_visit).
Proof. reflexivity. Qed.

(** The submit handler on an input that does not trim to empty. *)
Lemma chatForm_submit_nonempty (s : state) :
  trim (messageInput_value s) <> [] ->
  chatForm_submit s =
  suspend Chat_fetch
    (emit (Fetch (PostChat (trim (messageInput_value s)) (sessionId s)))
       (set_display Flex
          (set_messageInput []
             (addMessageToChat (VString (trim (messageInput_value s))) User s)))).
Proof.
  intros Hne. unfold chatForm_submit.
  destruct (trim (messageInput_value s)) as [|c r]; [congruence | reflexivity].
Qed.

Lemma chatForm_submit_empty (s : state) :
  trim (messageInput_value s) = [] -> chatForm_submit s = s.
Proof. intros He. unfold chatForm_submit. by rewrite He. Qed.

(** ** Empty input (C5, C10) *)

(** C5. Every empty input is a no-op: submitting (by the form or by Enter) a
    text that trims to empty leaves the whole page state as it was, so no
    Message is appended and no request is sent; a recorder that stops with
    no collected fragment sends no transcribe request; and a picker change
    with no file sends no upload request.  Nothing is rendered, alerted or
    logged in any of the three cases. *)
Theorem C5_empty_input_is_noop (s : state) :
  (trim (messageInput_value s) = [] ->
     step s Submit = Some s /\ step s (KeyDown (lit "Enter") false) = Some s) /\
  (audioChunks s = [] ->
     forall rid s', step s (RecorderStop rid) = Some s' ->
       trace s' = trace s /\ pending s' = pending s /\
       chatWindow s' = chatWindow s /\ loadingIndicator s' = loadingIndicator s) /\
  (forall s', step s (FileChange None) = Some s' ->
     trace s' = trace s /\ pending s' = pending s /\
     chatWindow s' = chatWindow s /\ loadingIndicator s' = loadingIndicator s).
Proof.
  split; [|split].
  - intros He. cbn. by rewrite chatForm_submit_empty.
  - intros He rid s' Hstep. cbn in Hstep.
    destruct (recorders s !! rid); [|discriminate].
    unfold sendAudioForTranscription in Hstep. cbn in Hstep.
    rewrite He in Hstep. by simplify_eq.
  - intros s' Hstep. cbn in Hstep. by simplify_eq.
Qed.

Lemma C5_empty_input_is_noop_witness :
  step (set_messageInput (lit "   ") page) Submit
    = Some (set_messageInput (lit "   ") page) /\
  (exists s', step (set_recorders [RecInactive] page) (RecorderStop 0%nat) = Some s' /\
              trace s' = [] /\ pending s' = ∅) /\
  (exists s', step page (FileChange None) = Some s' /\
              trace s' = [] /\ pending s' = ∅).
Proof.
  split; [|split].
  - apply (proj1 (C5_empty_input_is_noop (set_messageInput (lit "   ") page))).
    reflexivity.
  - eexists. split; [reflexivity|].
    destruct (proj1 (proj2 (C5_empty_input_is_noop (set_recorders [RecInactive] page)))
                eq_refl 0%nat _ eq_refl) as (Ht & Hp & _).
    split; assumption.
  - eexists. split; [reflexivity|].
    destruct (proj2 (proj2 (C5_empty_input_is_noop page)) _ eq_refl) as (Ht & Hp & _).
    split; assumption.
Defined.

(** C10. A transcription that trims to empty is dropped by the chained
    submission: when the transcribe body is parsed and its [transcription] is
    a string that trims to empty, the operation settles with the transcript
    and the action trace unchanged (no user Message, no chat request), no
    new task pending, and the indicator hidden. *)
Theorem C10_blank_transcription_is_dropped
    (s s' : state) (tid : nat) (data : jsval) (t : jstring) :
  pending s !! tid = Some Transcribe_json ->
  Get (host s) "data" data "transcription" = Normal (VString t) ->
  trim t = [] ->
  step s (Resume tid (BodyParsed data)) = Some s' ->
  chatWindow s' = chatWindow s /\ trace s' = trace s /\
  pending s' = delete tid (pending s) /\ busy s' = false.
Proof.
  intros Hp Hg Ht Hstep. cbn in Hstep. rewrite Hp in Hstep. cbn in Hstep.
  rewrite Hg in Hstep. rewrite chatForm_submit_empty in Hstep by exact Ht.
  by simplify_eq.
Qed.

Lemma C10_blank_transcription_is_dropped_witness :
  exists s',
    step (park 1%nat Transcribe_json page)
         (Resume 1%nat (BodyParsed (VObject [(lit "transcription", VString (lit "  "))])))
      = Some s' /\
    chatWindow s' = [] /\ trace s' = [] /\ busy s' = false.
Proof.
  eexists. split; [reflexivity|].
  destruct (C10_blank_transcription_is_dropped
              (park 1%nat Transcribe_json page) _ 1%nat
              (VObject [(lit "transcription", VString (lit "  "))]) (lit "  ")
              eq_refl eq_refl eq_refl eq_refl) as (Hc & Ht & _ & Hb).
  split; [exact Hc | split; [exact Ht | exact Hb]].
Defined.

(** ** Chat (C6, C7) *)

Lemma step_Resume (s : state) (tid : nat) (t : task) (r : settlement) :
  pending s !! tid = Some t ->
  step s (Resume tid r) = resume tid t r (set_pending (delete tid (pending s)) s).
Proof. intros Hp. cbn. by rewrite Hp. Qed.

Lemma pending_suspend (t : task) (s : state) :
  pending (suspend t s) !! next_task s = Some t.
Proof. cbn. apply lookup_insert_eq. Qed.

Lemma park_after_delete (tid : nat) (t : task) (s : state) :
  pending (park tid t (set_pending (delete tid (pending s)) s))
  = <[tid := t]> (pending s).
Proof. cbn. apply insert_delete_eq. Qed.

(** C6. For an input that does not trim to empty, the submit handler renders
    the user Message and then sends the chat request (the trace shows the
    order) and parks one chat task; a success status moves that task to
    reading the body without touching the transcript; a parsed body appends
    exactly one assistant Message whose text is its [response] and ends the
    task.  Run back to back, the three steps extend the transcript by the
    user Message and the assistant Message, in that order. *)
Theorem C6_chat_success (s : state) (r : jstring) :
  trim (messageInput_value s) <> [] ->
  let message := trim (messageInput_value s) in
  let prompt := {| text := VString message; sender := User |} in
  (chatWindow (chatForm_submit s) = chatWindow s ++ [prompt] /\
   trace (chatForm_submit s)
     = trace s ++ [Rendered prompt; Fetch (PostChat message (sessionId s))] /\
   pending (chatForm_submit s) = <[next_task s := Chat_fetch]> (pending s)) /\
  (forall s1 s2 tid,
     pending s1 !! tid = Some Chat_fetch ->
     step s1 (Resume tid (Responded true)) = Some s2 ->
     chatWindow s2 = chatWindow s1 /\ trace s2 = trace s1 /\
     pending s2 = <[tid := Chat_json]> (pending s1)) /\
  (forall s2 s3 tid data reply,
     pending s2 !! tid = Some Chat_json ->
     Get (host s2) "data" data "response" = Normal reply ->
     step s2 (Resume tid (BodyParsed data)) = Some s3 ->
     chatWindow s3 = chatWindow s2 ++ [{| text := reply; sender := AI |}] /\
     pending s3 = delete tid (pending s2)) /\
  (exists s',
     run s [Submit; Resume (next_task s) (Responded true);
            Resume (next_task s) (BodyParsed (VObject [(lit "response", VString r)]))]
       = Some s' /\
     chatWindow s'
       = chatWindow s ++ [prompt; {| text := VString r; sender := AI |}]).
Proof.
  intros Hne message prompt. split; [|split; [|split]].
  - rewrite chatForm_submit_nonempty by exact Hne. cbn.
    rewrite <- app_assoc. done.
  - intros s1 s2 tid Hp Hstep. rewrite (step_Resume _ _ _ _ Hp) in Hstep.
    cbn [resume chat_fetch_resume] in Hstep. simplify_eq.
    rewrite park_after_delete. done.
  - intros s2 s3 tid data reply Hp Hg Hstep.
    rewrite (step_Resume _ _ _ _ Hp) in Hstep.
    cbn [resume chat_json_resume] in Hstep. cbn [host set_pending] in Hstep.
    rewrite Hg in Hstep. by simplify_eq.
  - cbn [run]. change (step s Submit) with (Some (chatForm_submit s)). cbv iota.
    rewrite chatForm_submit_nonempty by exact Hne.
    erewrite step_Resume by (cbn; apply lookup_insert_eq).
    cbn [resume chat_fetch_resume].
    erewrite step_Resume by (rewrite park_after_delete; apply lookup_insert_eq).
    eexists. split; [reflexivity|].
    cbn. rewrite <- app_assoc. done.
Qed.

(** Scenario C: "Hello" answered by [{response: "Hi!"}] on an empty
    transcript. *)
Lemma C6_chat_success_witness :
  exists s',
    run (set_messageInput (lit "Hello") page)
        [Submit; Resume 0%nat (Responded true);
         Resume 0%nat (BodyParsed (VObject [(lit "response", VString (lit "Hi!"))]))]
      = Some s' /\
    chatWindow s' = [ {| text := VString (lit "Hello"); sender := User |};
                      {| text := VString (lit "Hi!"); sender := AI |} ].
Proof.
  assert (Hne : trim (messageInput_value (set_messageInput (lit "Hello") page)) <> [])
    by (vm_compute; discriminate).
  exact (proj2 (proj2 (proj2
           (C6_chat_success (set_messageInput (lit "Hello") page) (lit "Hi!") Hne)))).
Defined.




(** ** Speech synthesis (C8) *)

(** One resumption of a synthesis task: the transcript is never touched; a
    task that settles has hidden the indicator and has either logged the
    error and alerted, or started the playback of the body's [audio_url]. *)
Lemma speak_step_frame (s1 s2 : state) (tid : nat) (t : task) (r : settlement) :
  pending s1 !! tid = Some t ->
  is_speak_task t = true ->
  step s1 (Resume tid r) = Some s2 ->
  chatWindow s2 = chatWindow s1 /\
  (forall spoken, chatWindow (speakText spoken s1) = chatWindow s1) /\
  (pending s2 !! tid = None ->
     busy s2 = false /\ pending s2 = delete tid (pending s1) /\
     ((exists m,
         trace s2 = trace s1 ++ [ConsoleError (lit "Error in TTS:") m;
                                 Alert (lit "Could not play audio.")]) \/
      (exists data audio_url,
         t = Speak_json /\ r = BodyParsed data /\
         Get (host s1) "data" data "audio_url" = Normal audio_url /\
         trace s2 = trace s1 ++ [PlayAudio audio_url]))) /\
  (forall data audio_url,
     t = Speak_json -> r = BodyParsed data ->
     Get (host s1) "data" data "audio_url" = Normal audio_url ->
     busy s2 = false /\ pending s2 = delete tid (pending s1) /\
     trace s2 = trace s1 ++ [PlayAudio audio_url]).
Proof.
  intros Hp Ht Hstep. rewrite (step_Resume _ _ _ _ Hp) in Hstep.
  destruct t; try discriminate; destruct r as [| |[]| | |];
    cbn [resume speak_fetch_resume speak_json_resume host set_pending] in Hstep;
    try discriminate;
    try (destruct (Get (host s1) "data" data "audio_url") as [u|m] eqn:Hg);
    simplify_eq;
    (split; [reflexivity|]); (split; [reflexivity|]); split.
  all: try (intros Hgone; rewrite park_after_delete, lookup_insert_eq in Hgone;
            discriminate).
  all: try (intros data' url' ? ? Hg'; simplify_eq;
            try (rewrite Hg' in Hg; simplify_eq); done).
  all: intros _; (split; [reflexivity|]); (split; [reflexivity|]).
  all: try (left; eexists; cbn; rewrite <- app_assoc; reflexivity).
  right. eexists _, _. done.
Qed.

(** The speaker click, up to the first [await] of [speakText]. *)
Lemma step_SpeakerClick (s : state) (i : nat) (v : jsval) :
  chatWindow s !! i = Some {| text := v; sender := AI |} ->
  step s (SpeakerClick i)
  = Some (suspend Speak_fetch
            (emit (Fetch (PostSynthesize v)) (set_display Flex s))).
Proof. intros Hi. cbn [step]. by rewrite Hi. Qed.

(** C8. A synthesis started from the speaker of an assistant Message, run to
    its end.  On success (a success status, then a body whose [audio_url]
    can be read) the indicator is displayed from the click until the body
    arrives, and the very step that starts the playback hides it and ends
    the task: nothing is awaited on the playback, and the transcript is as
    before the click.  On every failure (a non-success status, a call that
    could not complete, an unreadable body, a body whose [audio_url] cannot
    be read) the operation settles with the transcript as before the click:
    the only effects are one console entry and the alert "Could not play
    audio.", and the indicator is hidden.  More generally no resumption of
    a synthesis task ever touches the transcript, and one that settles has
    hidden the indicator. *)
Theorem C8_synthesis_frame (s : state) (i : nat) (v : jsval) :
  chatWindow s !! i = Some {| text := v; sender := AI |} ->
  (forall data audio_url,
     Get (host s) "data" data "audio_url" = Normal audio_url ->
     exists s1 s2 s3,
       step s (SpeakerClick i) = Some s1 /\ busy s1 = true /\
       step s1 (Resume (next_task s) (Responded true)) = Some s2 /\
       busy s2 = true /\ chatWindow s2 = chatWindow s /\
       step s2 (Resume (next_task s) (BodyParsed data)) = Some s3 /\
       busy s3 = false /\ pending s3 !! next_task s = None /\
       chatWindow s3 = chatWindow s /\
       trace s3 = trace s ++ [Fetch (PostSynthesize v); PlayAudio audio_url]) /\
  (exists s',
     run s [SpeakerClick i; Resume (next_task s) (Responded false)] = Some s' /\
     chatWindow s' = chatWindow s /\ busy s' = false /\
     pending s' !! next_task s = None /\
     trace s'
       = trace s
         ++ [Fetch (PostSynthesize v);
             ConsoleError (lit "Error in TTS:") (lit "Speech synthesis failed");
             Alert (lit "Could not play audio.")]) /\
  (forall m, exists s',
     run s [SpeakerClick i; Resume (next_task s) (FetchFailed m)] = Some s' /\
     chatWindow s' = chatWindow s /\ busy s' = false /\
     pending s' !! next_task s = None /\
     trace s'
       = trace s
         ++ [Fetch (PostSynthesize v); ConsoleError (lit "Error in TTS:") m;
             Alert (lit "Could not play audio.")]) /\
  (forall m, exists s',
     run s [SpeakerClick i; Resume (next_task s) (Responded true);
            Resume (next_task s) (BodyFailed m)] = Some s' /\
     chatWindow s' = chatWindow s /\ busy s' = false /\
     pending s' !! next_task s = None /\
     trace s'
       = trace s
         ++ [Fetch (PostSynthesize v); ConsoleError (lit "Error in TTS:") m;
             Alert (lit "Could not play audio.")]) /\
  (forall data m,
     Get (host s) "data" data "audio_url" = Throw m ->
     exists s',
       run s [SpeakerClick i; Resume (next_task s) (Responded true);
              Resume (next_task s) (BodyParsed data)] = Some s' /\
       chatWindow s' = chatWindow s /\ busy s' = false /\
       pending s' !! next_task s = None /\
       trace s'
         = trace s
           ++ [Fetch (PostSynthesize v); ConsoleError (lit "Error in TTS:") m;
               Alert (lit "Could not play audio.")]) /\
  (forall s1 s2 tid t r,
     pending s1 !! tid = Some t -> is_speak_task t = true ->
     step s1 (Resume tid r) = Some s2 ->
     chatWindow s2 = chatWindow s1 /\
     (pending s2 !! tid = None -> busy s2 = false)).
Proof.
  intros Hi. split; [|split; [|split; [|split; [|split]]]].
  - intros data audio_url Hg. eexists _, _, _.
    split; [apply step_SpeakerClick, Hi|]. split; [reflexivity|].
    split; [erewrite step_Resume by (cbn; apply lookup_insert_eq); reflexivity|].
    split; [reflexivity|]. split; [reflexivity|].
    split.
    { erewrite step_Resume by (rewrite park_after_delete; apply lookup_insert_eq).
      cbn [resume speak_json_resume host park set_pending suspend emit set_trace
           set_next_task set_display].
      rewrite Hg. reflexivity. }
    split; [reflexivity|]. split; [cbn; apply lookup_delete_eq|].
    split; [reflexivity|]. cbn. by rewrite <- !app_assoc.
  - cbn [run]. rewrite (step_SpeakerClick _ _ _ Hi).
    erewrite step_Resume by (cbn; apply lookup_insert_eq).
    eexists. split; [reflexivity|]. split; [reflexivity|]. split; [reflexivity|].
    split; [cbn; apply lookup_delete_eq|]. cbn. by rewrite <- !app_assoc.
  - intros m. cbn [run]. rewrite (step_SpeakerClick _ _ _ Hi).
    erewrite step_Resume by (cbn; apply lookup_insert_eq).
    eexists. split; [reflexivity|]. split; [reflexivity|]. split; [reflexivity|].
    split; [cbn; apply lookup_delete_eq|]. cbn. by rewrite <- !app_assoc.
  - intros m. cbn [run]. rewrite (step_SpeakerClick _ _ _ Hi).
    erewrite step_Resume by (cbn; apply lookup_insert_eq).
    cbn [resume speak_fetch_resume].
    erewrite step_Resume by (rewrite park_after_delete; apply lookup_insert_eq).
    eexists. split; [reflexivity|]. split; [reflexivity|]. split; [reflexivity|].
    split; [cbn; apply lookup_delete_eq|]. cbn. by rewrite <- !app_assoc.
  - intros data m Hg. cbn [run]. rewrite (step_SpeakerClick _ _ _ Hi).
    erewrite step_Resume by (cbn; apply lookup_insert_eq).
    cbn [resume speak_fetch_resume].
    erewrite step_Resume by (rewrite park_after_delete; apply lookup_insert_eq).
    cbn [resume speak_json_resume host park set_pending suspend emit set_trace
         set_next_task set_display].
    rewrite Hg.
    eexists. split; [reflexivity|]. split; [reflexivity|]. split; [reflexivity|].
    split; [cbn; apply lookup_delete_eq|]. cbn. by rewrite <- !app_assoc.
  - intros s1 s2 tid t r Hp Ht Hstep.
    destruct (speak_step_frame s1 s2 tid t r Hp Ht Hstep) as (Hc & _ & Hsettle & _).
    split; [exact Hc|]. intros Hgone. by destruct (Hsettle Hgone).
Qed.

Lemma C8_synthesis_frame_witness :
  (exists s3,
     run page_with_reply
         [SpeakerClick 0%nat; Resume 0%nat (Responded true);
          Resume 0%nat (BodyParsed speech_body)] = Some s3 /\
     busy s3 = false /\ pending s3 !! 0%nat = None /\
     chatWindow s3 = chatWindow page_with_reply /\
     trace s3 = [Fetch (PostSynthesize (VString (lit "Hi!")));
                 PlayAudio (VString (lit "/static/audio/reply.wav"))]) /\
  (exists s',
     run page_with_reply [SpeakerClick 0%nat; Resume 0%nat (Responded false)]
       = Some s' /\
     chatWindow s' = chatWindow page_with_reply /\ busy s' = false /\
     trace s' = [Fetch (PostSynthesize (VString (lit "Hi!")));
                 ConsoleError (lit "Error in TTS:") (lit "Speech synthesis failed");
                 Alert (lit "Could not play audio.")]).
Proof.
  pose proof (C8_synthesis_frame page_with_reply 0%nat (VString (lit "Hi!")) eq_refl)
    as (Hok & Hbad & _).
  split.
  - destruct (Hok speech_body (VString (lit "/static/audio/reply.wav")) eq_refl)
      as (s1 & s2 & s3 & H1 & _ & H2 & _ & _ & H3 & Hb & Hp & Hc & Ht).
    exists s3. split; [|split; [exact Hb | split; [exact Hp | split; [exact Hc | exact Ht]]]].
    change (next_task page_with_reply) with 0%nat in H2, H3.
    cbn [run]. rewrite H1, H2, H3. reflexivity.
  - destruct Hbad as (s' & Hrun & Hc & Hb & _ & Ht).
    exists s'. split; [exact Hrun | split; [exact Hc | split; [exact Hb | exact Ht]]].
Defined.

(** ** Upload (C9) *)

Lemma upload_success_text_names (f : file) : Contains (name f) (upload_success_text f).
Proof.
  exists (lit "Successfully uploaded and indexed " ++ [34]),
         ([34] ++ lit ". You can now ask questions about it.").
  unfold upload_success_text. by rewrite <- !app_assoc.
Qed.

(** The steps of an upload one by one: what the change handler does with a
    file selected, and what each resumption of an upload task appends. *)
Lemma upload_step_outcomes (f : file) :
  (forall s,
     fileUpload_files s = Some f ->
     chatWindow (fileUpload_change s) = chatWindow s /\
     trace (fileUpload_change s) = trace s ++ [Fetch (PostUpload f)] /\
     pending (fileUpload_change s) = <[next_task s := Upload_fetch f]> (pending s)) /\
  (forall s1 s2 tid data,
     pending s1 !! tid = Some (Upload_json f true) ->
     step s1 (Resume tid (BodyParsed data)) = Some s2 ->
     chatWindow s2
       = chatWindow s1 ++ [{| text := VString (upload_success_text f); sender := AI |}] /\
     Contains (name f) (upload_success_text f) /\
     fileUpload_files s2 = None) /\
  (forall s1 s2 tid data detail,
     pending s1 !! tid = Some (Upload_json f false) ->
     Get (host s1) "data" data "detail" = Normal detail ->
     step s1 (Resume tid (BodyParsed data)) = Some s2 ->
     chatWindow s2
       = chatWindow s1
         ++ [{| text := VString (lit "Error: "
                          ++ (if truthy detail then ToString detail
                              else lit "Upload failed"));
                sender := AI |}] /\
     fileUpload_files s2 = None) /\
  (forall s1 s2 tid m,
     pending s1 !! tid = Some (Upload_fetch f) ->
     step s1 (Resume tid (FetchFailed m)) = Some s2 ->
     chatWindow s2
       = chatWindow s1 ++ [{| text := VString (lit "Error: " ++ m); sender := AI |}] /\
     fileUpload_files s2 = None) /\
  (forall s1 s2 tid t r,
     pending s1 !! tid = Some t -> is_upload_task t = true ->
     step s1 (Resume tid r) = Some s2 ->
     pending s2 !! tid = None ->
     (exists v, chatWindow s2 = chatWindow s1 ++ [{| text := v; sender := AI |}]) /\
     fileUpload_files s2 = None /\ busy s2 = false).
Proof.
  split; [|split; [|split; [|split]]].
  - intros s Hf. unfold fileUpload_change. rewrite Hf. done.
  - intros s1 s2 tid data Hp Hstep. rewrite (step_Resume _ _ _ _ Hp) in Hstep.
    cbn [resume upload_json_resume] in Hstep. simplify_eq.
    split; [reflexivity|]. split; [apply upload_success_text_names | reflexivity].
  - intros s1 s2 tid data detail Hp Hg Hstep.
    rewrite (step_Resume _ _ _ _ Hp) in Hstep.
    cbn [resume upload_json_resume host set_pending] in Hstep.
    rewrite Hg in Hstep. unfold or_else in Hstep.
    destruct (truthy detail); by simplify_eq.
  - intros s1 s2 tid m Hp Hstep. rewrite (step_Resume _ _ _ _ Hp) in Hstep.
    cbn [resume upload_fetch_resume] in Hstep. by simplify_eq.
  - intros s1 s2 tid t r Hp Ht Hstep Hgone.
    rewrite (step_Resume _ _ _ _ Hp) in Hstep.
    destruct t as [| | | | | | | |f'|f' ok]; try discriminate;
      destruct r as [| |ok'| | |];
      cbn [resume upload_fetch_resume upload_json_resume host set_pending] in Hstep;
      try discriminate;
      try (destruct ok);
      repeat match type of Hstep with
             | context [Get ?p ?e ?b ?n] => destruct (Get p e b n)
             end;
      simplify_eq;
      try (rewrite park_after_delete, lookup_insert_eq in Hgone; discriminate);
      (split; [eexists; reflexivity | split; reflexivity]).
Qed.

Lemma step_FileChange_picked (s : state) (f : file) :
  step s (FileChange (Some f))
  = Some (suspend (Upload_fetch f)
            (emit (Fetch (PostUpload f)) (set_display Flex (set_files (Some f) s)))).
Proof. reflexivity. Qed.

(** The tactic of the upload runs: the change event, the status, and the
    start of the body's resumption. *)
Ltac upload_run :=
  cbn [run]; rewrite step_FileChange_picked;
  erewrite step_Resume by (cbn; apply lookup_insert_eq);
  cbn [resume upload_fetch_resume];
  try (erewrite step_Resume by (rewrite park_after_delete; apply lookup_insert_eq);
       cbn [resume upload_json_resume host park set_pending suspend emit set_trace
            set_next_task set_display set_files]).

(** Closes an upload run that ended in [catch] and [finally]. *)
Ltac upload_tail :=
  eexists; split; [reflexivity|]; split; [reflexivity|];
  split; [reflexivity|]; split; [reflexivity|];
  split; [cbn; apply lookup_delete_eq|];
  cbn; rewrite !List.filter_app; cbn; by rewrite <- ?app_assoc, ?app_nil_r.

(** C9. An upload started by picking a file f, run to its end.  With a
    success status and a parsed body, exactly one assistant Message is
    appended, and its text contains the name of f.  With a non-success
    status and a parsed body, exactly one assistant Message is appended:
    "Error: " followed by the body's [detail] when it is truthy and by
    "Upload failed" otherwise.  When the call cannot complete, when the body
    cannot be parsed (whatever the status), or when the [detail] of a
    non-success body cannot be read, exactly one assistant Message "Error: "
    followed by the error's message is appended.  On every one of these
    outcomes the file control is emptied, the indicator is hidden and the
    task is over.  More generally every upload task that settles has
    appended exactly one assistant Message, emptied the file control and
    hidden the indicator. *)
Theorem C9_upload_outcomes (s : state) (f : file) :
  (forall data,
     exists s1 s2 s3,
       step s (FileChange (Some f)) = Some s1 /\
       chatWindow s1 = chatWindow s /\ fileUpload_files s1 = Some f /\
       step s1 (Resume (next_task s) (Responded true)) = Some s2 /\
       chatWindow s2 = chatWindow s /\
       step s2 (Resume (next_task s) (BodyParsed data)) = Some s3 /\
       chatWindow s3
         = chatWindow s
           ++ [{| text := VString (upload_success_text f); sender := AI |}] /\
       Contains (name f) (upload_success_text f) /\
       fileUpload_files s3 = None /\ busy s3 = false /\
       pending s3 !! next_task s = None /\
       trace s3
         = trace s
           ++ [Fetch (PostUpload f);
               Rendered {| text := VString (upload_success_text f);
                           sender := AI |}]) /\
  (forall data detail,
     Get (host s) "data" data "detail" = Normal detail ->
     exists s',
       run s [FileChange (Some f); Resume (next_task s) (Responded false);
              Resume (next_task s) (BodyParsed data)] = Some s' /\
       chatWindow s'
         = chatWindow s
           ++ [{| text := VString (lit "Error: "
                            ++ (if truthy detail then ToString detail
                                else lit "Upload failed"));
                  sender := AI |}] /\
       fileUpload_files s' = None /\ busy s' = false /\
       pending s' !! next_task s = None /\
       List.filter outbound (trace s')
         = List.filter outbound (trace s) ++ [Fetch (PostUpload f)]) /\
  (forall m, exists s',
     run s [FileChange (Some f); Resume (next_task s) (FetchFailed m)] = Some s' /\
     chatWindow s'
       = chatWindow s ++ [{| text := VString (lit "Error: " ++ m); sender := AI |}] /\
     fileUpload_files s' = None /\ busy s' = false /\
     pending s' !! next_task s = None /\
     List.filter outbound (trace s')
       = List.filter outbound (trace s) ++ [Fetch (PostUpload f)]) /\
  (forall ok m, exists s',
     run s [FileChange (Some f); Resume (next_task s) (Responded ok);
            Resume (next_task s) (BodyFailed m)] = Some s' /\
     chatWindow s'
       = chatWindow s ++ [{| text := VString (lit "Error: " ++ m); sender := AI |}] /\
     fileUpload_files s' = None /\ busy s' = false /\
     pending s' !! next_task s = None /\
     List.filter outbound (trace s')
       = List.filter outbound (trace s) ++ [Fetch (PostUpload f)]) /\
  (forall data m,
     Get (host s) "data" data "detail" = Throw m ->
     exists s',
       run s [FileChange (Some f); Resume (next_task s) (Responded false);
              Resume (next_task s) (BodyParsed data)] = Some s' /\
       chatWindow s'
         = chatWindow s ++ [{| text := VString (lit "Error: " ++ m); sender := AI |}] /\
       fileUpload_files s' = None /\ busy s' = false /\
       pending s' !! next_task s = None /\
       List.filter outbound (trace s')
         = List.filter outbound (trace s) ++ [Fetch (PostUpload f)]) /\
  (forall s1 s2 tid t r,
     pending s1 !! tid = Some t -> is_upload_task t = true ->
     step s1 (Resume tid r) = Some s2 ->
     pending s2 !! tid = None ->
     (exists v, chatWindow s2 = chatWindow s1 ++ [{| text := v; sender := AI |}]) /\
     fileUpload_files s2 = None /\ busy s2 = false).
Proof.
  split; [|split; [|split; [|split; [|split]]]].
  - intros data. eexists _, _, _.
    split; [apply step_FileChange_picked|]. split; [reflexivity|].
    split; [reflexivity|].
    split; [erewrite step_Resume by (cbn; apply lookup_insert_eq); reflexivity|].
    split; [reflexivity|].
    split; [erewrite step_Resume
              by (rewrite park_after_delete; apply lookup_insert_eq);
            reflexivity|].
    split; [reflexivity|]. split; [apply upload_success_text_names|].
    split; [reflexivity|]. split; [reflexivity|].
    split; [cbn; apply lookup_delete_eq|]. cbn. by rewrite <- !app_assoc.
  - intros data detail Hg. upload_run. rewrite Hg. unfold or_else.
    destruct (truthy detail); upload_tail.
  - intros m. upload_run. upload_tail.
  - intros ok m. upload_run. upload_tail.
  - intros data m Hg. upload_run. rewrite Hg. upload_tail.
  - intros s1 s2 tid t r Hp Ht Hstep Hgone.
    destruct t as [| | | | | | | |f'|f' ok]; try discriminate.
    + exact (proj2 (proj2 (proj2 (proj2 (upload_step_outcomes f'))))
               s1 s2 tid _ r Hp eq_refl Hstep Hgone).
    + exact (proj2 (proj2 (proj2 (proj2 (upload_step_outcomes f'))))
               s1 s2 tid _ r Hp eq_refl Hstep Hgone).
Qed.

(** Scenario F: [notes.pdf] is picked on the page and the upload succeeds;
    and the same upload answered by a 400 with a detail. *)
Lemma C9_upload_outcomes_witness :
  (exists s3,
     run page [FileChange (Some notes_pdf); Resume 0%nat (Responded true);
               Resume 0%nat (BodyParsed (VObject []))] = Some s3 /\
     chatWindow s3
       = [{| text := VString (upload_success_text notes_pdf); sender := AI |}] /\
     Contains (lit "notes.pdf") (upload_success_text notes_pdf) /\
     fileUpload_files s3 = None /\ busy s3 = false) /\
  (exists s',
     run page [FileChange (Some notes_pdf); Resume 0%nat (Responded false);
               Resume 0%nat
                 (BodyParsed (VObject [(lit "detail", VString (lit "Unsupported file type"))]))]
       = Some s' /\
     chatWindow s'
       = [{| text := VString (lit "Error: Unsupported file type"); sender := AI |}] /\
     fileUpload_files s' = None /\ busy s' = false).
Proof.
  pose proof (C9_upload_outcomes page notes_pdf) as (Hok & Hbad & _).
  split.
  - destruct (Hok (VObject []))
      as (s1 & s2 & s3 & H1 & _ & _ & H2 & _ & H3 & Hc & Hn & Hf & Hb & _).
    change (next_task page) with 0%nat in H2, H3.
    exists s3. split; [|split; [exact Hc | split; [exact Hn | split; [exact Hf | exact Hb]]]].
    cbn [run]. rewrite H1, H2, H3. reflexivity.
  - destruct (Hbad (VObject [(lit "detail", VString (lit "Unsupported file type"))])
                (VString (lit "Unsupported file type")) eq_refl)
      as (s' & Hrun & Hc & Hf & Hb & _).
    exists s'. split; [exact Hrun | split; [exact Hc | split; [exact Hf | exact Hb]]].
Defined.

(** ** The busy signal (C1, C2) *)

Lemma Fresh_delete (p : gmap nat task) (n tid : nat) :
  Fresh p n -> Fresh (delete tid p) n.
Proof.
  intros Hf k t Hk. apply lookup_delete_Some in Hk as [_ Hk]. eauto.
Qed.

Lemma Fresh_suspend (p : gmap nat task) (n : nat) (t : task) :
  Fresh p n -> Fresh (<[n := t]> p) (S n).
Proof.
  intros Hf k t' Hk. apply lookup_insert_Some in Hk as [[<- _]|[_ Hk]].
  - lia.
  - apply Hf in Hk. lia.
Qed.

Lemma Fresh_park (p : gmap nat task) (n tid : nat) (t0 t : task) :
  Fresh p n -> p !! tid = Some t0 -> Fresh (<[tid := t]> (delete tid p)) n.
Proof.
  intros Hf Hp k t' Hk. apply lookup_insert_Some in Hk as [[<- _]|[_ Hk]].
  - eauto.
  - apply lookup_delete_Some in Hk as [_ Hk]. eauto.
Qed.

Lemma Outstanding_insert (p : gmap nat task) (k : nat) (t : task) :
  is_operation t = true -> Outstanding (<[k := t]> p).
Proof. intros Ht. exists k, t. split; [apply lookup_insert_eq | exact Ht]. Qed.

Lemma Outstanding_suspend (p : gmap nat task) (n : nat) (t : task) :
  Fresh p n -> Outstanding p -> Outstanding (<[n := t]> p).
Proof.
  intros Hf (k & t' & Hk & Ht'). exists k, t'. split; [|exact Ht'].
  rewrite lookup_insert_ne; [exact Hk|]. apply Hf in Hk. lia.
Qed.

Lemma Outstanding_delete (p : gmap nat task) (tid : nat) (t0 : task) :
  p !! tid = Some t0 -> is_operation t0 = false ->
  Outstanding p -> Outstanding (delete tid p).
Proof.
  intros Hp H0 (k & t' & Hk & Ht'). exists k, t'. split; [|exact Ht'].
  rewrite lookup_delete_ne; [exact Hk|]. intros ->. congruence.
Qed.

Create HintDb busy.
#[local] Hint Resolve Fresh_delete Fresh_suspend Fresh_park Outstanding_insert
  Outstanding_suspend Outstanding_delete : busy.

(** Closes [busy_inv] of a state written out as setters over a state whose
    invariant is known. *)
Ltac busy_inv_tac :=
  split; cbn;
  [ eauto 6 with busy
  | first [ discriminate
          | intros; eauto 6 with busy ] ].

Lemma chatForm_submit_fresh (s : state) :
  Fresh (pending s) (next_task s) ->
  Fresh (pending (chatForm_submit s)) (next_task (chatForm_submit s)).
Proof.
  intros Hf. unfold chatForm_submit.
  destruct (trim (messageInput_value s)); cbn; eauto with busy.
Qed.

Lemma chatForm_submit_inv (s : state) : busy_inv s -> busy_inv (chatForm_submit s).
Proof.
  intros [Hf Hb]. unfold chatForm_submit.
  destruct (trim (messageInput_value s)); [done | busy_inv_tac].
Qed.

Lemma sendAudioForTranscription_inv (s : state) :
  busy_inv s -> busy_inv (sendAudioForTranscription s).
Proof.
  intros [Hf Hb]. unfold sendAudioForTranscription.
  destruct (audioChunks s); [done | busy_inv_tac].
Qed.

Lemma fileUpload_change_inv (s : state) :
  busy_inv s -> busy_inv (fileUpload_change s).
Proof.
  intros [Hf Hb]. unfold fileUpload_change.
  destruct (fileUpload_files s); [busy_inv_tac | done].
Qed.

Lemma micBtn_click_inv (s : state) : busy_inv s -> busy_inv (micBtn_click s).
Proof.
  intros [Hf Hb]. unfold micBtn_click, stopRecording, startRecording.
  destruct (isRecording s).
  - destruct (mediaRecorder s) as [rid|]; [|done].
    destruct (recorders s !! rid) as [[]|]; done.
  - destruct (has_getUserMedia (host s)); busy_inv_tac.
Qed.

Lemma resume_inv (s s' : state) (tid : nat) (t : task) (r : settlement) :
  busy_inv s -> pending s !! tid = Some t ->
  resume tid t r (set_pending (delete tid (pending s)) s) = Some s' ->
  busy_inv s'.
Proof.
  intros [Hf Hb] Hp Hres.
  destruct t; destruct r as [[]| |[]| | |];
    cbn [resume startRecording_resume transcribe_fetch_resume
         transcribe_json_resume chat_fetch_resume chat_errorJson_resume
         chat_json_resume speak_fetch_resume speak_json_resume
         upload_fetch_resume upload_json_resume host set_pending] in Hres;
    try discriminate;
    try (destruct ok);
    repeat match type of Hres with
           | context [Get ?p ?e ?b ?n] => destruct (Get p e b n)
           end;
    simplify_eq;
    try (busy_inv_tac; fail).
  (* a parsed transcription: the chained submit, then [finally] *)
  split; [|discriminate].
  apply (chatForm_submit_fresh
           (set_messageInput (toDOMString a) (set_pending (delete tid (pending s)) s))).
  cbn. eauto with busy.
Qed.

Lemma step_inv (s s' : state) (e : event) :
  busy_inv s -> step s e = Some s' -> busy_inv s'.
Proof.
  intros Hinv Hstep. destruct e; cbn [step] in Hstep.
  - simplify_eq. by apply micBtn_click_inv.
  - simplify_eq. destruct Hinv. busy_inv_tac.
  - simplify_eq. by apply chatForm_submit_inv.
  - destruct (jstring_eqb key (lit "Enter") && negb shiftKey); simplify_eq;
      [by apply chatForm_submit_inv | done].
  - by simplify_eq.
  - simplify_eq. apply fileUpload_change_inv. destruct Hinv. busy_inv_tac.
  - destruct (chatWindow s !! i) as [[message []]|]; simplify_eq.
    destruct Hinv. busy_inv_tac.
  - destruct (pending s !! tid) as [t|] eqn:Hp; [|discriminate].
    eapply resume_inv; eauto.
  - destruct (recorders s !! rid); simplify_eq. destruct Hinv. busy_inv_tac.
  - destruct (recorders s !! rid); simplify_eq.
    apply sendAudioForTranscription_inv. destruct Hinv. busy_inv_tac.
Qed.

Lemma run_inv (es : list event) (s s' : state) :
  busy_inv s -> run s es = Some s' -> busy_inv s'.
Proof.
  revert s. induction es as [|e es IH]; intros s Hinv Hrun; cbn in Hrun.
  - by simplify_eq.
  - destruct (step s e) as [s1|] eqn:Hstep; [|discriminate].
    eapply IH; [|exact Hrun]. eapply step_inv; eauto.
Qed.

Lemma boot_inv (e : environment) (s0 : state) (st : localStorage) :
  indicator_shown e = false -> boot e = Normal (s0, st) -> busy_inv s0.
Proof.
  intros Hshown Hboot. unfold boot in Hboot.
  destruct (getOrCreate e) as [[[sid fresh_session] st']|]; [|discriminate].
  simplify_eq. split.
  - intros tid t Hp. destruct fresh_session; cbn in Hp;
      rewrite lookup_empty in Hp; discriminate.
  - unfold busy. destruct fresh_session; cbn; rewrite Hshown; discriminate.
Qed.

(** C2. Each of the four remote operations releases the busy signal when it
    settles: whenever a pending operation task is resumed and does not park
    at a further [await] (success, handled error or thrown exception alike),
    the indicator is hidden in the resulting state.  And on a page whose
    markup starts with the indicator hidden, after any sequence of events
    whatever (any interleaving of overlapping operations), a state with no
    operation in flight has the busy signal false: so it is false before the
    first operation starts and after the last one settles. *)
Theorem C2_busy_released :
  (forall s s' tid t r,
     pending s !! tid = Some t -> is_operation t = true ->
     step s (Resume tid r) = Some s' ->
     pending s' !! tid = None ->
     busy s' = false) /\
  (forall e s0 st es s,
     indicator_shown e = false ->
     boot e = Normal (s0, st) ->
     run s0 es = Some s ->
     (forall tid t, pending s !! tid = Some t -> is_operation t = false) ->
     busy s = false).
Proof.
  split.
  - intros s s' tid t r Hp Ht Hstep Hgone.
    rewrite (step_Resume _ _ _ _ Hp) in Hstep.
    destruct t; try discriminate; destruct r as [[]| |[]| | |];
      cbn [resume transcribe_fetch_resume transcribe_json_resume
           chat_fetch_resume chat_errorJson_resume chat_json_resume
           speak_fetch_resume speak_json_resume upload_fetch_resume
           upload_json_resume host set_pending] in Hstep;
      try discriminate;
      try (destruct ok);
      repeat match type of Hstep with
             | context [Get ?p ?e ?b ?n] => destruct (Get p e b n)
             end;
      simplify_eq;
      try (rewrite park_after_delete, lookup_insert_eq in Hgone; discriminate);
      reflexivity.
  - intros e s0 st es s Hshown Hboot Hrun Hidle.
    destruct (run_inv es s0 s (boot_inv e s0 st Hshown Hboot) Hrun) as [_ Hb].
    destruct (busy s) eqn:Hbusy; [|reflexivity].
    destruct (Hb eq_refl) as (tid & t & Hp & Hop).
    rewrite (Hidle tid t Hp) in Hop. discriminate.
Qed.

Lemma C2_busy_released_witness :
  (exists s',
     step (park 0%nat Chat_fetch (set_display Flex page))
          (Resume 0%nat (FetchFailed (lit "Failed to fetch"))) = Some s' /\
     busy s' = false) /\
  (exists s, run page overlapping_chat_and_upload = Some s /\ busy s = false).
Proof.
  split.
  - eexists. split; [reflexivity|].
    exact (proj1 C2_busy_released (park 0%nat Chat_fetch (set_display Flex page)) _
             0%nat Chat_fetch (FetchFailed (lit "Failed to fetch"))
             eq_refl eq_refl eq_refl eq_refl).
  - eexists. split; [vm_compute; reflexivity|].
    apply (proj2 C2_busy_released returning_visit page (storage returning_visit)
             overlapping_chat_and_upload);
      [reflexivity | reflexivity | vm_compute; reflexivity |].
    intros tid t Hp. exfalso. revert Hp.
    change ((∅ : gmap nat task) !! tid = Some t -> False).
    rewrite lookup_empty. discriminate.
Defined.

(** Whenever the transcribe body is parsed and its [transcription] is a
    string that does not trim to empty, the transcription settles in a single
    step that renders the user Message, sends the chat request, parks the
    chat task, and then runs its [finally]: the indicator is hidden while the
    chained chat is in flight. *)
Lemma transcription_hides_indicator_over_chat
    (s : state) (tid : nat) (data : jsval) (t : jstring) :
  pending s !! tid = Some Transcribe_json ->
  Get (host s) "data" data "transcription" = Normal (VString t) ->
  trim t <> [] ->
  exists s',
    step s (Resume tid (BodyParsed data)) = Some s' /\
    busy s' = false /\
    pending s' = <[next_task s := Chat_fetch]> (delete tid (pending s)) /\
    chatWindow s' = chatWindow s ++ [{| text := VString (trim t); sender := User |}] /\
    trace s' = trace s ++ [Rendered {| text := VString (trim t); sender := User |};
                           Fetch (PostChat (trim t) (sessionId s))].
Proof.
  intros Hp Hg Hne. rewrite (step_Resume _ _ _ _ Hp).
  cbn [resume transcribe_json_resume host set_pending]. rewrite Hg.
  rewrite chatForm_submit_nonempty by exact Hne.
  eexists. split; [reflexivity|]. cbn. rewrite <- app_assoc. done.
Qed.

(** The same text typed and submitted by hand: the indicator stays displayed
    while the chat request is in flight. *)
Lemma typed_submission_keeps_indicator (s : state) :
  trim (messageInput_value s) <> [] ->
  busy (chatForm_submit s) = true /\
  pending (chatForm_submit s) !! next_task s = Some Chat_fetch.
Proof.
  intros Hne. rewrite chatForm_submit_nonempty by exact Hne.
  split; [reflexivity | cbn; apply lookup_insert_eq].
Qed.

(** C1. The busy signal should stay set from the transcribe call until the
    chained chat settles; the script does not do that.  After the dictation
    the indicator is displayed and task 1 is the transcription; when its
    body [{transcription: "Hello"}] arrives, the user Message is rendered,
    the chained chat (task 2) is sent and in flight, the transcription has
    settled, and the indicator is hidden: it stays hidden through the
    success status of the chat and until the chat settles. *)
Theorem C1_busy_drops_while_chat_in_flight :
  exists s1 s2 s3,
    run page dictation = Some s1 /\
    busy s1 = true /\ pending s1 !! 1%nat = Some Transcribe_json /\
    step s1 (Resume 1%nat (BodyParsed hello_transcription)) = Some s2 /\
    pending s2 !! 1%nat = None /\ pending s2 !! 2%nat = Some Chat_fetch /\
    chatWindow s2 = [{| text := VString (lit "Hello"); sender := User |}] /\
    busy s2 = false /\
    step s2 (Resume 2%nat (Responded true)) = Some s3 /\
    pending s3 !! 2%nat = Some Chat_json /\ busy s3 = false.
Proof.
  eexists _, _, _. split; [vm_compute; reflexivity|].
  split; [reflexivity|]. split; [reflexivity|].
  split; [vm_compute; reflexivity|].
  split; [reflexivity|]. split; [reflexivity|]. split; [reflexivity|].
  split; [reflexivity|]. split; [vm_compute; reflexivity|].
  split; reflexivity.
Qed.

(** ** Recording (C3) *)

Lemma capturing_stop (rs : list recorder) (rid : nat) :
  (length (List.filter is_capturing (<[rid := RecInactive]> rs))
   <= length (List.filter is_capturing rs))%nat.
Proof.
  revert rid. induction rs as [|r rs IH]; intros rid; [done|].
  destruct rid as [|rid]; simpl.
  - destruct r; simpl; lia.
  - destruct r; simpl; [apply IH | apply le_n_S, IH].
Qed.

Lemma awaiting_device_false (s : state) (tid : nat) :
  awaiting_device s = false ->
  pending s !! tid <> Some StartRecording_getUserMedia.
Proof.
  intros Hno Hp. apply elem_of_map_to_list, list_elem_of_In in Hp.
  assert (awaiting_device s = true) as Hyes; [|congruence].
  apply existsb_exists. by exists (tid, StartRecording_getUserMedia).
Qed.

Lemma Requests_sub_refl (p : gmap nat task) : Requests_sub p p.
Proof. by intros tid. Qed.

Lemma Requests_sub_delete (p' p : gmap nat task) (k : nat) :
  Requests_sub p' p -> Requests_sub (delete k p') p.
Proof. intros Hs tid Hp. apply lookup_delete_Some in Hp as [_ Hp]. eauto. Qed.

Lemma Requests_sub_insert (p' p : gmap nat task) (k : nat) (t : task) :
  is_operation t = true -> Requests_sub p' p -> Requests_sub (<[k := t]> p') p.
Proof.
  intros Ht Hs tid Hp. apply lookup_insert_Some in Hp as [[_ ->]|[_ Hp]].
  - discriminate Ht.
  - eauto.
Qed.

Create HintDb recording.
#[local] Hint Resolve Requests_sub_refl Requests_sub_delete Requests_sub_insert
  : recording.

(** Steps that leave the recorder alone and add no device request. *)
Lemma recording_inv_frame (s s' : state) :
  recorders s' = recorders s -> mediaRecorder s' = mediaRecorder s ->
  isRecording s' = isRecording s -> Requests_sub (pending s') (pending s) ->
  recording_inv s -> recording_inv s'.
Proof.
  intros Hr Hm Hi Hsub (HJ & HK & HU). split; [|split].
  - intros rid. rewrite Hr, Hm, Hi. apply HJ.
  - intros tid Hp. rewrite Hi. eauto.
  - intros t1 t2 H1 H2. eauto.
Qed.

Ltac recording_frame :=
  eapply recording_inv_frame; [..|eassumption]; cbn;
  first [reflexivity | eauto 6 with recording].

Lemma chatForm_submit_recording (s : state) :
  recording_inv s -> recording_inv (chatForm_submit s).
Proof.
  intros Hinv. unfold chatForm_submit.
  destruct (trim (messageInput_value s)); [done | recording_frame].
Qed.

Lemma sendAudioForTranscription_recording (s : state) :
  recording_inv s -> recording_inv (sendAudioForTranscription s).
Proof.
  intros Hinv. unfold sendAudioForTranscription.
  destruct (audioChunks s); [done | recording_frame].
Qed.

Lemma fileUpload_change_recording (s : state) :
  recording_inv s -> recording_inv (fileUpload_change s).
Proof.
  intros Hinv. unfold fileUpload_change.
  destruct (fileUpload_files s); [recording_frame | done].
Qed.

(** Stopping a recorder (by [stop()] or by the browser) keeps the first
    clause. *)
Lemma recording_stays_pointed (rs : list recorder) (rid k : nat) :
  <[rid := RecInactive]> rs !! k = Some RecRecording ->
  rs !! k = Some RecRecording /\ k <> rid.
Proof.
  intros Hk. destruct (decide (k = rid)) as [->|Hne].
  - destruct (decide (rid < length rs)%nat).
    + rewrite list_lookup_insert_eq in Hk by done. discriminate.
    + rewrite list_insert_ge in Hk by lia.
      apply lookup_lt_Some in Hk. lia.
  - rewrite list_lookup_insert_ne in Hk by done. done.
Qed.

Lemma micBtn_click_recording (s : state) :
  awaiting_device s = false -> recording_inv s -> recording_inv (micBtn_click s).
Proof.
  intros Hno Hinv. pose proof Hinv as (HJ & HK & HU). unfold micBtn_click.
  destruct (isRecording s) eqn:Hrec.
  - unfold stopRecording.
    destruct (mediaRecorder s) as [rid|] eqn:Hm; [|done].
    destruct (recorders s !! rid) as [[]|] eqn:Hrid; try done.
    split; [|split]; cbn.
    + intros k Hk. apply recording_stays_pointed in Hk as [Hk Hne].
      apply HJ in Hk as [Hk _]. congruence.
    + done.
    + exact HU.
  - unfold startRecording. destruct (has_getUserMedia (host s)); cbn.
    + split; [|split]; cbn.
      * intros rid Hrid. apply HJ in Hrid as [_ Hrid]. congruence.
      * done.
      * intros t1 t2 H1 H2.
        apply lookup_insert_Some in H1 as [[<- _]|[_ H1]];
          [|by apply awaiting_device_false in H1].
        apply lookup_insert_Some in H2 as [[<- _]|[_ H2]];
          [done | by apply awaiting_device_false in H2].
    + recording_frame.
Qed.

Lemma startRecording_resume_recording (s s' : state) (tid : nat) (r : settlement) :
  recording_inv s -> pending s !! tid = Some StartRecording_getUserMedia ->
  startRecording_resume r (set_pending (delete tid (pending s)) s) = Some s' ->
  recording_inv s'.
Proof.
  intros (HJ & HK & HU) Hp Hres.
  assert (Hidle : forall rid, recorders s !! rid <> Some RecRecording).
  { intros rid Hrid. apply HJ in Hrid as [_ Hrid].
    rewrite (HK tid Hp) in Hrid. discriminate. }
  assert (Hlast : forall t, delete tid (pending s) !! t
                            <> Some StartRecording_getUserMedia).
  { intros t Ht. apply lookup_delete_Some in Ht as [Hne Ht]. eauto. }
  destruct r as [[]| | | | |]; cbn in Hres; simplify_eq;
    (split; [|split]); cbn;
    try (intros t1 Ht1; by apply Hlast in Ht1);
    try (intros t1 t2 Ht1; by apply Hlast in Ht1);
    try (intros rid Hrid; by apply Hidle in Hrid).
  - intros rid Hrid. split; [|done].
    destruct (decide (rid = length (recorders s))) as [->|Hne]; [done|].
    rewrite list_lookup_insert_ne in Hrid by done.
    apply lookup_app_Some in Hrid as [Hrid|[Hge Hrid]].
    + by apply Hidle in Hrid.
    + destruct (rid - length (recorders s))%nat eqn:Hd; [lia|]. done.
  - intros rid Hrid.
    apply lookup_app_Some in Hrid as [Hrid|[Hge Hrid]].
    + by apply Hidle in Hrid.
    + destruct (rid - length (recorders s))%nat; done.
Qed.

Lemma resume_recording (s s' : state) (tid : nat) (t : task) (r : settlement) :
  recording_inv s -> pending s !! tid = Some t ->
  resume tid t r (set_pending (delete tid (pending s)) s) = Some s' ->
  recording_inv s'.
Proof.
  intros Hinv Hp Hres.
  destruct t;
    [ cbn [resume] in Hres; eapply startRecording_resume_recording; eauto | ..];
    destruct r as [[]| |[]| | |];
    cbn [resume transcribe_fetch_resume
         transcribe_json_resume chat_fetch_resume chat_errorJson_resume
         chat_json_resume speak_fetch_resume speak_json_resume
         upload_fetch_resume upload_json_resume host set_pending] in Hres;
    try discriminate;
    try (destruct ok);
    repeat match type of Hres with
           | context [Get ?p ?e ?b ?n] => destruct (Get p e b n)
           end;
    simplify_eq;
    try (recording_frame; fail).
  (* a parsed transcription: the chained submit, then [finally] *)
  eapply (recording_inv_frame
            (chatForm_submit
               (set_messageInput (toDOMString a)
                  (set_pending (delete tid (pending s)) s))));
    [reflexivity..| apply Requests_sub_refl |].
  apply chatForm_submit_recording. recording_frame.
Qed.

Lemma step_recording (s s' : state) (e : event) :
  unhurried s [e] = true -> recording_inv s -> step s e = Some s' ->
  recording_inv s'.
Proof.
  intros Hcalm Hinv Hstep. destruct e; cbn [step] in Hstep.
  - simplify_eq. apply micBtn_click_recording; [|done].
    cbn in Hcalm. by destruct (awaiting_device s).
  - simplify_eq. recording_frame.
  - simplify_eq. by apply chatForm_submit_recording.
  - destruct (jstring_eqb key (lit "Enter") && negb shiftKey); simplify_eq;
      [by apply chatForm_submit_recording | done].
  - by simplify_eq.
  - simplify_eq. apply fileUpload_change_recording. recording_frame.
  - destruct (chatWindow s !! i) as [[message []]|]; simplify_eq.
    recording_frame.
  - destruct (pending s !! tid) as [t|] eqn:Hp; [|discriminate].
    eapply resume_recording; eauto.
  - destruct (recorders s !! rid); simplify_eq. recording_frame.
  - destruct (recorders s !! rid); simplify_eq.
    apply sendAudioForTranscription_recording.
    destruct Hinv as (HJ & HK & HU). split; [|split]; cbn; [|done..].
    intros k Hk. apply recording_stays_pointed in Hk as [Hk _]. eauto.
Qed.

Lemma run_recording (es : list event) (s s' : state) :
  unhurried s es = true -> recording_inv s -> run s es = Some s' ->
  recording_inv s'.
Proof.
  revert s. induction es as [|e es IH]; intros s Hcalm Hinv Hrun; cbn in Hrun.
  - by simplify_eq.
  - destruct (step s e) as [s1|] eqn:Hstep; [|discriminate].
    cbn [unhurried] in Hcalm. rewrite Hstep in Hcalm.
    apply andb_prop in Hcalm as [Hhere Hrest].
    eapply IH; [exact Hrest | | exact Hrun].
    eapply step_recording; [|exact Hinv | exact Hstep].
    cbn [unhurried]. rewrite Hhere. by destruct (step s e).
Qed.

Lemma boot_recording (e : environment) (s0 : state) (st : localStorage) :
  boot e = Normal (s0, st) -> recording_inv s0.
Proof.
  intros Hboot. unfold boot in Hboot.
  destruct (getOrCreate e) as [[[sid fresh_session] st']|]; [|discriminate].
  simplify_eq.
  destruct fresh_session; (split; [|split]); cbn;
    intros; simplify_map_eq; done.
Qed.

Lemma no_recording_no_capture (rs : list recorder) :
  (forall k, rs !! k <> Some RecRecording) -> List.filter is_capturing rs = [].
Proof.
  induction rs as [|r rs IH]; intros Hno; [done|].
  destruct r; simpl.
  - apply IH. intros k. apply (Hno (S k)).
  - by destruct (Hno 0%nat).
Qed.

Lemma one_pointer_one_capture (rs : list recorder) :
  (forall i j, rs !! i = Some RecRecording -> rs !! j = Some RecRecording -> i = j) ->
  (length (List.filter is_capturing rs) <= 1)%nat.
Proof.
  induction rs as [|r rs IH]; intros Huniq; [simpl; lia|].
  destruct r; simpl.
  - apply IH. intros i j Hi Hj.
    specialize (Huniq (S i) (S j) Hi Hj). lia.
  - rewrite no_recording_no_capture; [simpl; lia|].
    intros k Hk. specialize (Huniq 0%nat (S k) eq_refl Hk). lia.
Qed.

Lemma recording_inv_capturing (s : state) :
  recording_inv s -> (capturing s <= 1)%nat.
Proof.
  intros (HJ & _ & _). apply one_pointer_one_capture.
  intros i j Hi Hj. apply HJ in Hi as [Hi _]. apply HJ in Hj as [Hj _]. congruence.
Qed.

(** C3, as stated, fails: [startRecording] has no guard.  Called on a page
    that is capturing (one recorder recording, [isRecording] set) it asks
    for the device again, and once the stream is granted two recorders are
    capturing.  The toggle does not cover the time before the first grant
    either: two clicks, then the two grants, also leave two recorders
    capturing. *)
Lemma C3_counterexample :
  exists s1 s2 s3,
    run page [MicClick; Resume 0%nat (StreamGranted SetupOk)] = Some s1 /\
    isRecording s1 = true /\ capturing s1 = 1%nat /\
    pending (startRecording s1) !! 1%nat = Some StartRecording_getUserMedia /\
    run (startRecording s1) [Resume 1%nat (StreamGranted SetupOk)] = Some s2 /\
    capturing s2 = 2%nat /\
    run page [MicClick; MicClick; Resume 0%nat (StreamGranted SetupOk);
              Resume 1%nat (StreamGranted SetupOk)] = Some s3 /\
    capturing s3 = 2%nat.
Proof.
  eexists _, _, _. split; [vm_compute; reflexivity|].
  split; [reflexivity|]. split; [reflexivity|]. split; [reflexivity|].
  split; [vm_compute; reflexivity|]. split; [reflexivity|].
  split; [vm_compute; reflexivity|]. reflexivity.
Qed.

(** C3, amended. [startRecording] has no guard of its own; the guard is the
    toggle of the click handler.  While [isRecording] is set, a click on the
    microphone runs [stopRecording], which asks for no device, parks no task
    and never raises the number of capturing recorders.  From page load, as
    long as no click arrives while a device request is still parked, at most
    one recorder is capturing after any sequence of events.  And
    [stopRecording] on an idle controller (no recorder yet, or an inactive
    one) returns the state unchanged, raising nothing. *)
Theorem C3_toggle_guards_start :
  (forall s,
     isRecording s = true ->
     step s MicClick = Some (stopRecording s) /\
     pending (stopRecording s) = pending s /\
     trace (stopRecording s) = trace s /\
     (capturing (stopRecording s) <= capturing s)%nat) /\
  (forall e s0 st es s,
     boot e = Normal (s0, st) ->
     unhurried s0 es = true ->
     run s0 es = Some s ->
     (capturing s <= 1)%nat) /\
  (forall s, mediaRecorder s = None -> stopRecording s = s) /\
  (forall s rid,
     mediaRecorder s = Some rid -> recorders s !! rid = Some RecInactive ->
     stopRecording s = s).
Proof.
  split; [|split; [|split]].
  - intros s Hrec. cbn. unfold micBtn_click. rewrite Hrec. split; [reflexivity|].
    unfold stopRecording, capturing.
    destruct (mediaRecorder s) as [rid|]; [|done].
    destruct (recorders s !! rid) as [[]|]; try done.
    cbn. split; [reflexivity|]. split; [reflexivity|]. apply capturing_stop.
  - intros e s0 st es s Hboot Hcalm Hrun.
    apply recording_inv_capturing.
    eapply run_recording; [exact Hcalm | | exact Hrun].
    eapply boot_recording, Hboot.
  - intros s Hnone. unfold stopRecording. by rewrite Hnone.
  - intros s rid Hsome Hin. unfold stopRecording. by rewrite Hsome, Hin.
Qed.

Lemma C3_toggle_guards_start_witness :
  run page [MicClick; Resume 0%nat (StreamGranted SetupOk)] = Some capturing_page /\
  step capturing_page MicClick = Some (stopRecording capturing_page) /\
  capturing (stopRecording capturing_page) = 0%nat /\
  (exists s, run page two_recordings = Some s /\ (capturing s <= 1)%nat) /\
  stopRecording page = page.
Proof.
  split; [vm_compute; reflexivity|].
  split; [exact (proj1 (proj1 C3_toggle_guards_start capturing_page eq_refl))|].
  split; [reflexivity|].
  split.
  - eexists. split; [vm_compute; reflexivity|].
    apply (proj1 (proj2 C3_toggle_guards_start) returning_visit page
             (storage returning_visit) two_recordings);
      [reflexivity | vm_compute; reflexivity | vm_compute; reflexivity].
  - exact (proj1 (proj2 (proj2 C3_toggle_guards_start)) page eq_refl).
Defined.

(** ** Session identity (C4) *)

(** C4, as stated, fails: when the browser refuses the storage, reading the
    token throws and the page load ends there, with no state and no token;
    when the storage is readable but full, writing the new token throws
    likewise. *)
Lemma C4_counterexample :
  boot blocked_storage_visit = Throw (lit "The operation is insecure.") /\
  getOrCreate blocked_storage_visit = Throw (lit "The operation is insecure.") /\
  boot full_storage_visit = Throw (lit "The quota has been exceeded.") /\
  getOrCreate full_storage_visit = Throw (lit "The quota has been exceeded.").
Proof. repeat split; reflexivity. Qed.

(** C4, amended. [getOrCreate] handles no storage error.  If reading the
    storage throws, the page load throws the same error.  If the storage is
    readable and holds a non-empty token, the page starts with that token,
    the storage untouched and no greeting.  If it holds no token (or an
    empty one) and writing throws, the page load throws that error.  If it
    holds none and writing works, the page starts with the generated token,
    which is also the stored one, and with the greeting as only Message. *)
Theorem C4_session_identity (e : environment) :
  (forall m, getItem_error (storage e) = Some m -> boot e = Throw m) /\
  (forall tok,
     getItem_error (storage e) = None ->
     items (storage e) !! lit "victus_session_id" = Some tok -> tok <> [] ->
     exists s, boot e = Normal (s, storage e) /\ sessionId s = tok /\
               chatWindow s = []) /\
  (forall m,
     getItem_error (storage e) = None ->
     items (storage e) !! lit "victus_session_id" = None \/
     items (storage e) !! lit "victus_session_id" = Some [] ->
     setItem_error (storage e) = Some m -> boot e = Throw m) /\
  (getItem_error (storage e) = None ->
   items (storage e) !! lit "victus_session_id" = None \/
   items (storage e) !! lit "victus_session_id" = Some [] ->
   setItem_error (storage e) = None ->
   exists s st, boot e = Normal (s, st) /\ sessionId s = new_session_id e /\
                items st !! lit "victus_session_id" = Some (new_session_id e) /\
                chatWindow s = [{| text := VString greeting; sender := AI |}]).
Proof.
  unfold boot, getOrCreate, getItem, setItem. split; [|split; [|split]].
  - intros m Hr. by rewrite Hr.
  - intros tok Hr Hi Hne. rewrite Hr, Hi. destruct tok; [done|].
    eexists. split; [reflexivity|]. done.
  - intros m Hr Hi Hw. rewrite Hr, Hw. by destruct Hi as [-> | ->].
  - intros Hr Hi Hw. rewrite Hr, Hw.
    destruct Hi as [-> | ->]; eexists _, _; (split; [reflexivity|]); cbn;
      (split; [reflexivity|]); (split; [apply lookup_insert_eq | reflexivity]).
Qed.

Lemma C4_session_identity_witness :
  (exists s, boot returning_visit = Normal (s, storage returning_visit) /\
             sessionId s = stored_token /\ chatWindow s = []) /\
  (exists s st, boot first_visit = Normal (s, st) /\
                sessionId s = lit "sess_1700000000000_k3j5h2l9q" /\
                items st !! lit "victus_session_id"
                  = Some (lit "sess_1700000000000_k3j5h2l9q")) /\
  boot blocked_storage_visit = Throw (lit "The operation is insecure.").
Proof.
  split; [|split].
  - apply (proj1 (proj2 (C4_session_identity returning_visit)) stored_token);
      [reflexivity | reflexivity | vm_compute; discriminate].
  - destruct (proj2 (proj2 (proj2 (C4_session_identity first_visit)))
                eq_refl (or_introl eq_refl) eq_refl)
      as (s & st & Hb & Hs & Hi & _).
    exists s, st. split; [exact Hb|]. split; [exact Hs | exact Hi].
  - exact (proj1 (C4_session_identity blocked_storage_visit) _ eq_refl).
Defined.

(** ** Trimming *)

Lemma trimStart_head (s : jstring) (c : N) (r : jstring) :
  trimStart s = c :: r -> is_space c = false.
Proof.
  induction s as [|a s IH]; simpl; [discriminate|].
  destruct (is_space a) eqn:Ha; [exact IH|].
  intros Heq. by simplify_eq.
Qed.

Lemma trimStart_fixed (c : N) (r : jstring) :
  is_space c = false -> trimStart (c :: r) = c :: r.
Proof. intros Hc. simpl. by rewrite Hc. Qed.

Lemma trimStart_idem (s : jstring) : trimStart (trimStart s) = trimStart s.
Proof.
  destruct (trimStart s) as [|c r] eqn:Hs; [done|].
  apply trimStart_fixed. eapply trimStart_head, Hs.
Qed.

(** [trimStart] drops a prefix. *)
Lemma trimStart_suffix (s : jstring) : exists ws, s = ws ++ trimStart s.
Proof.
  induction s as [|a s [ws IH]]; [by exists []|]. simpl.
  destruct (is_space a).
  - exists (a :: ws). simpl. by rewrite <- IH.
  - by exists [].
Qed.

(** [trimEnd] drops a suffix. *)
Lemma trimEnd_prefix (s : jstring) : exists ws, s = trimEnd s ++ ws.
Proof.
  unfold trimEnd. destruct (trimStart_suffix (rev s)) as [ws Hws].
  exists (rev ws). rewrite <- rev_app_distr, <- Hws. by rewrite rev_involutive.
Qed.

Lemma trimEnd_idem (s : jstring) : trimEnd (trimEnd s) = trimEnd s.
Proof. unfold trimEnd. by rewrite rev_involutive, trimStart_idem. Qed.

(** Trimming the end of a text that starts with a non-space keeps it
    starting with a non-space. *)
Lemma trimStart_trimEnd (s : jstring) :
  trimStart s = s -> trimStart (trimEnd s) = trimEnd s.
Proof.
  intros Hs. destruct (trimEnd_prefix s) as [ws Hws].
  destruct (trimEnd s) as [|c r] eqn:He; [done|].
  apply trimStart_fixed. rewrite Hws in Hs. simpl in Hs.
  destruct (is_space c) eqn:Hc; [|done]. exfalso.
  destruct (trimStart_suffix (r ++ ws)) as [pre Hpre].
  apply (f_equal length) in Hs. rewrite Hpre in Hs at 2.
  simpl in Hs. rewrite length_app in Hs. lia.
Qed.

Lemma trim_idem (s : jstring) : trim (trim s) = trim s.
Proof.
  unfold trim. rewrite trimStart_trimEnd by apply trimStart_idem.
  apply trimEnd_idem.
Qed.

(** ** What one turn of the event loop can add *)

Lemma user_texts_app (a b : list Message) :
  user_texts (a ++ b) = user_texts a ++ user_texts b.
Proof.
  induction a as [|m a IH]; [done|]. simpl. destruct (sender m); simpl; by rewrite IH.
Qed.

Lemma chat_requests_app (a b : list action) :
  chat_requests (a ++ b) = chat_requests a ++ chat_requests b.
Proof.
  induction a as [|x a IH]; [done|]. simpl.
  destruct x as [| [] | | | |]; simpl; by rewrite IH.
Qed.

(** The additions of a step, once the state is written out as setters. *)
Ltac additions :=
  eexists _, _; cbn; rewrite <- ?app_assoc;
  split; [first [reflexivity | symmetry; apply app_nil_r]|];
  split; [first [reflexivity | symmetry; apply app_nil_r]|];
  split; [reflexivity|]; split; [reflexivity|].

Lemma chatForm_submit_effect (s : state) :
  exists ms acts,
    chatWindow (chatForm_submit s) = chatWindow s ++ ms /\
    trace (chatForm_submit s) = trace s ++ acts /\
    sessionId (chatForm_submit s) = sessionId s /\
    host (chatForm_submit s) = host s /\
    ((user_texts ms = [] /\ chat_requests acts = []) \/
     (exists m, m <> [] /\ trim m = m /\ user_texts ms = [VString m] /\
                chat_requests acts = [(m, sessionId s)])).
Proof.
  unfold chatForm_submit.
  destruct (trim (messageInput_value s)) as [|c r] eqn:Hm.
  - additions. by left.
  - additions. right. exists (c :: r).
    split; [done|]. split; [|done]. rewrite <- Hm. apply trim_idem.
Qed.

(** Every step appends to the transcript and to the trace, keeps the token
    and the browser, and adds either no user Message and no chat request,
    or one user Message together with the one chat request that carries its
    text. *)
Lemma step_effect (s s' : state) (e : event) :
  step s e = Some s' ->
  exists ms acts,
    chatWindow s' = chatWindow s ++ ms /\
    trace s' = trace s ++ acts /\
    sessionId s' = sessionId s /\
    host s' = host s /\
    ((user_texts ms = [] /\ chat_requests acts = []) \/
     (exists m, m <> [] /\ trim m = m /\ user_texts ms = [VString m] /\
                chat_requests acts = [(m, sessionId s)])).
Proof.
  intros Hstep. destruct e; cbn [step] in Hstep.
  - simplify_eq. unfold micBtn_click, stopRecording, startRecording.
    destruct (isRecording s).
    + destruct (mediaRecorder s) as [rid|]; [|additions; by left].
      destruct (recorders s !! rid) as [[]|]; additions; by left.
    + destruct (has_getUserMedia (host s)); additions; by left.
  - simplify_eq. additions. by left.
  - simplify_eq. apply chatForm_submit_effect.
  - destruct (jstring_eqb key (lit "Enter") && negb shiftKey); simplify_eq;
      [apply chatForm_submit_effect | additions; by left].
  - simplify_eq. additions. by left.
  - simplify_eq. unfold fileUpload_change. cbn.
    destruct picked; additions; by left.
  - destruct (chatWindow s !! i) as [[message []]|]; simplify_eq.
    additions. by left.
  - destruct (pending s !! tid) as [t|] eqn:Hp; [|discriminate].
    destruct t; destruct r as [[]| |[]| | |];
      cbn [resume startRecording_resume transcribe_fetch_resume
           transcribe_json_resume chat_fetch_resume chat_errorJson_resume
           chat_json_resume speak_fetch_resume speak_json_resume
           upload_fetch_resume upload_json_resume host set_pending] in Hstep;
      try discriminate;
      try (destruct ok);
      repeat match type of Hstep with
             | context [Get ?p ?e ?b ?n] => destruct (Get p e b n)
             end;
      simplify_eq;
      try (additions; by left).
    (* a parsed transcription: the chained submit, then [finally] *)
    apply (chatForm_submit_effect
             (set_messageInput (toDOMString a)
                (set_pending (delete tid (pending s)) s))).
  - destruct (recorders s !! rid); simplify_eq. additions. by left.
  - destruct (recorders s !! rid); simplify_eq.
    unfold sendAudioForTranscription. cbn.
    destruct (audioChunks s); additions; by left.
Qed.

(** ** The transcript over whole runs (X1, X2) *)

(** X1. The transcript is append-only: after any sequence of events the old
    transcript is a prefix of the new one, so every Message keeps its
    position and content; the trace only grows as well, and the session
    token and the browser record never change during a page load. *)
Theorem X1_transcript_append_only (es : list event) (s s' : state) :
  run s es = Some s' ->
  (exists ms, chatWindow s' = chatWindow s ++ ms) /\
  (exists acts, trace s' = trace s ++ acts) /\
  sessionId s' = sessionId s /\ host s' = host s /\
  (forall i m, chatWindow s !! i = Some m -> chatWindow s' !! i = Some m).
Proof.
  revert s. induction es as [|e es IH]; intros s Hrun; cbn in Hrun.
  - simplify_eq. split; [exists []; by rewrite app_nil_r|].
    split; [exists []; by rewrite app_nil_r|]. done.
  - destruct (step s e) as [s1|] eqn:Hstep; [|discriminate].
    destruct (step_effect _ _ _ Hstep) as (ms & acts & Hc & Ht & Hs & Hh & _).
    destruct (IH _ Hrun) as ((ms' & Hc') & (acts' & Ht') & Hs' & Hh' & Hl').
    split; [exists (ms ++ ms'); by rewrite Hc', Hc, app_assoc|].
    split; [exists (acts ++ acts'); by rewrite Ht', Ht, app_assoc|].
    split; [congruence|]. split; [congruence|].
    intros i m Hi. apply Hl'. rewrite Hc. by apply lookup_app_l_Some.
Qed.

Lemma X1_transcript_append_only_witness :
  exists s',
    run (set_messageInput (lit "Hello") page)
        [Submit; Resume 0%nat (FetchFailed (lit "Failed to fetch"))] = Some s' /\
    (forall i m, chatWindow (set_messageInput (lit "Hello") page) !! i = Some m ->
                 chatWindow s' !! i = Some m) /\
    sessionId s' = stored_token.
Proof.
  edestruct (X1_transcript_append_only
               [Submit; Resume 0%nat (FetchFailed (lit "Failed to fetch"))]
               (set_messageInput (lit "Hello") page))
    as (_ & _ & Hs & _ & Hl); [vm_compute; reflexivity|].
  eexists. split; [vm_compute; reflexivity|].
  split; [exact Hl | exact Hs].
Defined.

Lemma run_keeps_token (es : list event) (s s' : state) :
  run s es = Some s' -> sessionId s' = sessionId s.
Proof.
  revert s. induction es as [|e es IH]; intros s Hrun; cbn in Hrun.
  - by simplify_eq.
  - destruct (step s e) as [s1|] eqn:Hstep; [|discriminate].
    destruct (step_effect _ _ _ Hstep) as (_ & _ & _ & _ & Hs & _).
    rewrite (IH _ Hrun). exact Hs.
Qed.

Lemma step_chat_inv (s s' : state) (e : event) :
  chat_inv s -> step s e = Some s' -> chat_inv s'.
Proof.
  intros [Hu Hf] Hstep.
  destruct (step_effect _ _ _ Hstep) as (ms & acts & Hc & Ht & Hs & _ & Hd).
  unfold chat_inv. rewrite Hc, Ht, Hs, user_texts_app, chat_requests_app, map_app.
  destruct Hd as [[-> ->]|(m & Hne & Htrim & -> & ->)].
  - rewrite !app_nil_r. done.
  - split; [by rewrite Hu|]. apply Forall_app. split; [done|].
    by apply Forall_singleton.
Qed.

Lemma run_chat_inv (es : list event) (s s' : state) :
  chat_inv s -> run s es = Some s' -> chat_inv s'.
Proof.
  revert s. induction es as [|e es IH]; intros s Hinv Hrun; cbn in Hrun.
  - by simplify_eq.
  - destruct (step s e) as [s1|] eqn:Hstep; [|discriminate].
    eapply IH; [|exact Hrun]. eapply step_chat_inv; eauto.
Qed.

Lemma chat_requests_Rendered (ms : list Message) :
  chat_requests (map Rendered ms) = [].
Proof. induction ms as [|m ms IH]; [done | exact IH]. Qed.

Lemma new_session_id_nonempty (e : environment) : new_session_id e <> [].
Proof. unfold new_session_id. simpl. discriminate. Qed.

(** After a page load that did not throw, the token in use is the stored
    one, it is not empty, and reading the storage works. *)
Lemma boot_token (e : environment) (s0 : state) (st : localStorage) :
  boot e = Normal (s0, st) ->
  items st !! lit "victus_session_id" = Some (sessionId s0) /\
  sessionId s0 <> [] /\ getItem_error st = None /\
  trace s0 = map Rendered (chatWindow s0) /\ user_texts (chatWindow s0) = [].
Proof.
  unfold boot, getOrCreate, getItem, setItem. intros Hboot.
  destruct (getItem_error (storage e)) eqn:Hr; [discriminate|].
  destruct (items (storage e) !! lit "victus_session_id") as [[|c r]|] eqn:Hi.
  - destruct (setItem_error (storage e)); simplify_eq. cbn.
    split; [apply lookup_insert_eq|]. by split; [apply new_session_id_nonempty|].
  - by simplify_eq.
  - destruct (setItem_error (storage e)); simplify_eq. cbn.
    split; [apply lookup_insert_eq|]. by split; [apply new_session_id_nonempty|].
Qed.

(** X2. From page load on, after any sequence of events, the user Messages
    of the transcript are exactly the messages of the chat requests sent, in
    the same order: no prompt without its request and no request without its
    prompt.  Every chat request carries a message that is non-empty and
    already trimmed, and as session id the token kept in the storage. *)
Theorem X2_prompts_match_chat_requests
    (e : environment) (s0 s : state) (st : localStorage) (es : list event) :
  boot e = Normal (s0, st) ->
  run s0 es = Some s ->
  user_texts (chatWindow s) = map (fun p => VString (fst p)) (chat_requests (trace s)) /\
  Forall (fun p => fst p <> [] /\ trim (fst p) = fst p /\
                   items st !! lit "victus_session_id" = Some (snd p))
         (chat_requests (trace s)).
Proof.
  intros Hboot Hrun.
  destruct (boot_token _ _ _ Hboot) as (Htok & _ & _ & Htr & Hu0).
  assert (chat_inv s0) as Hinv0.
  { unfold chat_inv. rewrite Htr, Hu0, chat_requests_Rendered. by split. }
  destruct (run_chat_inv _ _ _ Hinv0 Hrun) as [Hu Hf].
  split; [exact Hu|].
  pose proof (run_keeps_token _ _ _ Hrun) as Hs.
  eapply Forall_impl; [exact Hf|]. intros [m sid] (Hne & Htrim & Hsid).
  simpl in *. by rewrite Hsid, Hs.
Qed.

Lemma X2_prompts_match_chat_requests_witness :
  exists s,
    run page overlapping_chat_and_upload = Some s /\
    user_texts (chatWindow s) = [VString (lit "Hello")] /\
    chat_requests (trace s) = [(lit "Hello", stored_token)] /\
    Forall (fun p => fst p <> [] /\ trim (fst p) = fst p /\
                     items (storage returning_visit) !! lit "victus_session_id"
                       = Some (snd p))
           (chat_requests (trace s)).
Proof.
  eexists. split; [vm_compute; reflexivity|].
  split; [reflexivity|]. split; [reflexivity|].
  match goal with
  | |- Forall _ (chat_requests (trace ?final)) =>
      destruct (X2_prompts_match_chat_requests returning_visit page final
                  (storage returning_visit) overlapping_chat_and_upload)
        as [_ Hf]; [reflexivity | vm_compute; reflexivity | exact Hf]
  end.
Defined.

(** ** The token across page loads (X3) *)

(** X3. A page load that did not throw leaves a storage from which every
    later load reads the same token back: the later load starts with that
    token, writes nothing, and shows no greeting.  So the greeting appears
    at most on the load that created the token. *)
Theorem X3_token_survives_reload
    (e e' : environment) (s : state) (st : localStorage) :
  boot e = Normal (s, st) ->
  storage e' = st ->
  exists s', boot e' = Normal (s', st) /\ sessionId s' = sessionId s /\
             chatWindow s' = [].
Proof.
  intros Hboot Hst.
  destruct (boot_token _ _ _ Hboot) as (Htok & Hne & Hread & _).
  unfold boot, getOrCreate, getItem. rewrite Hst, Hread, Htok.
  destruct (sessionId s) as [|c r]; [done|].
  eexists. split; [reflexivity|]. done.
Qed.

Lemma X3_token_survives_reload_witness :
  exists s s',
    boot first_visit = Normal (s, storage second_visit) /\
    chatWindow s = [{| text := VString greeting; sender := AI |}] /\
    boot second_visit = Normal (s', storage second_visit) /\
    sessionId s' = sessionId s /\ chatWindow s' = [].
Proof.
  edestruct (X3_token_survives_reload first_visit second_visit)
    as (s' & Hb & Hs & Hc); [reflexivity | reflexivity |].
  eexists _, s'. split; [reflexivity|]. split; [reflexivity|].
  split; [exact Hb|]. split; [exact Hs | exact Hc].
Defined.

(** ** Failed transcription (X4) *)

Lemma outbound_app (a b : list action) :
  List.filter outbound (a ++ b) = List.filter outbound a ++ List.filter outbound b.
Proof. apply List.filter_app. Qed.



(** ** Fragments handed to the transcription (X5) *)

Lemma run_app (es1 es2 : list event) (s : state) :
  run s (es1 ++ es2)
  = match run s es1 with
    | Some s1 => run s1 es2
    | None => None
    end.
Proof.
  revert s. induction es1 as [|e es1 IH]; intros s; [done|]. simpl.
  destruct (step s e); [apply IH | done].
Qed.

(** X5. Fragments delivered by a recorder are buffered in arrival order
    behind what is already buffered, and the recorder's stop event sends them
    all in one transcribe request, in that order, and empties the buffer:
    a further stop event with nothing new buffered sends nothing. *)
Theorem X5_fragments_sent_in_order (ds : list blob) (s : state) (rid : nat) :
  is_Some (recorders s !! rid) ->
  audioChunks s ++ ds <> [] ->
  exists s',
    run s (map (DataAvailable rid) ds ++ [RecorderStop rid]) = Some s' /\
    trace s' = trace s ++ [Fetch (PostTranscribe (audioChunks s ++ ds))] /\
    audioChunks s' = [] /\ chatWindow s' = chatWindow s /\ busy s' = true /\
    exists s'', step s' (RecorderStop rid) = Some s'' /\ trace s'' = trace s'.
Proof.
  revert s. induction ds as [|d ds IH]; intros s [rec Hrec] Hne.
  - rewrite app_nil_r in *. simpl. rewrite Hrec. unfold sendAudioForTranscription.
    simpl. destruct (audioChunks s) as [|c cs] eqn:Hc; [done|].
    eexists. split; [reflexivity|]. cbn.
    split; [done|]. split; [done|]. split; [done|]. split; [done|].
    destruct (decide (rid < length (recorders s))%nat) as [Hlt|Hge].
    + rewrite list_lookup_insert_eq by done. eexists. split; [reflexivity|]. done.
    + apply lookup_lt_Some in Hrec. lia.
  - simpl. rewrite Hrec.
    destruct (IH (set_audioChunks (audioChunks s ++ [d]) s)) as (s' & Hrun & Hrest).
    + by exists rec.
    + cbn. rewrite <- app_assoc. exact Hne.
    + exists s'. split; [exact Hrun|]. cbn in Hrest.
      rewrite <- app_assoc in Hrest. exact Hrest.
Qed.

Lemma X5_fragments_sent_in_order_witness :
  exists s',
    run capturing_page
        [DataAvailable 0%nat [26; 69]; DataAvailable 0%nat [223; 163];
         RecorderStop 0%nat] = Some s' /\
    trace s' = [GetUserMedia; Fetch (PostTranscribe [[26; 69]; [223; 163]])] /\
    audioChunks s' = [].
Proof.
  destruct (X5_fragments_sent_in_order [[26; 69]; [223; 163]] capturing_page 0%nat)
    as (s' & Hrun & Ht & Ha & _).
  - by exists RecRecording.
  - vm_compute. discriminate.
  - exists s'. split; [exact Hrun|]. split; [exact Ht | exact Ha].
Defined.

(** ** Recorder edge cases (X6, X7) *)

Lemma capturing_new_inactive (rs : list recorder) :
  length (List.filter is_capturing (rs ++ [RecInactive]))
  = length (List.filter is_capturing rs).
Proof. rewrite List.filter_app. simpl. by rewrite app_nil_r. Qed.

(** The [catch] of [startRecording]: when the device request fails (the
    stream is denied, or [new MediaRecorder] or [start()] throws), the
    controller stays as it was, and the only effects are one console entry
    and the alert asking for permission. *)
Lemma startRecording_failure_step
    (s s' : state) (tid : nat) (r : settlement) (m : jstring) :
  pending s !! tid = Some StartRecording_getUserMedia ->
  start_failure r = Some m ->
  step s (Resume tid r) = Some s' ->
  isRecording s' = isRecording s /\ capturing s' = capturing s /\
  chatWindow s' = chatWindow s /\ loadingIndicator s' = loadingIndicator s /\
  pending s' = delete tid (pending s) /\
  trace s'
    = trace s
      ++ [ConsoleError (lit "Error accessing microphone:") m;
          Alert (lit "Could not access microphone. Please grant permission.")].
Proof.
  intros Hp Hfail Hstep. rewrite (step_Resume _ _ _ _ Hp) in Hstep.
  destruct r as [[]| | | | |]; cbn in Hfail; simplify_eq; cbn in Hstep;
    simplify_eq; unfold capturing; cbn; rewrite <- ?app_assoc;
    rewrite ?capturing_new_inactive; done.
Qed.

Ltac recorder_frame :=
  cbn; split_and!; first [reflexivity | eauto 7 with recording].

(** Events other than a microphone click, a recorder stop and the answer to
    a device request leave the recorder alone and park no device request. *)
Lemma step_recorder_frame (s s' : state) (e : event) :
  step s e = Some s' ->
  match e with
  | MicClick | RecorderStop _ => False
  | Resume tid _ => pending s !! tid <> Some StartRecording_getUserMedia
  | _ => True
  end ->
  recorders s' = recorders s /\ mediaRecorder s' = mediaRecorder s /\
  isRecording s' = isRecording s /\ Requests_sub (pending s') (pending s).
Proof.
  intros Hstep Hkind. destruct e; cbn [step] in Hstep; try done.
  - simplify_eq. recorder_frame.
  - simplify_eq. unfold chatForm_submit.
    destruct (trim (messageInput_value s)); recorder_frame.
  - destruct (jstring_eqb key (lit "Enter") && negb shiftKey); simplify_eq;
      [|recorder_frame].
    unfold chatForm_submit.
    destruct (trim (messageInput_value s)); recorder_frame.
  - simplify_eq. recorder_frame.
  - simplify_eq. unfold fileUpload_change. cbn.
    destruct picked; recorder_frame.
  - destruct (chatWindow s !! i) as [[message []]|]; simplify_eq.
    recorder_frame.
  - destruct (pending s !! tid) as [t|] eqn:Hp; [|discriminate].
    destruct t; [done|..]; destruct r as [[]| |[]| | |];
      cbn [resume transcribe_fetch_resume
           transcribe_json_resume chat_fetch_resume chat_errorJson_resume
           chat_json_resume speak_fetch_resume speak_json_resume
           upload_fetch_resume upload_json_resume host set_pending] in Hstep;
      try discriminate;
      try (destruct ok);
      repeat match type of Hstep with
             | context [Get ?p ?e ?b ?n] => destruct (Get p e b n)
             end;
      simplify_eq;
      try (recorder_frame; fail).
    unfold chatForm_submit.
    match goal with
    | |- context [match ?x with [] => _ | _ :: _ => _ end] => destruct x
    end; recorder_frame.
  - destruct (recorders s !! rid); simplify_eq. recorder_frame.
Qed.

Lemma wedged_frame (s s' : state) (rid : nat) :
  recorders s' = recorders s /\ mediaRecorder s' = mediaRecorder s /\
  isRecording s' = isRecording s /\ Requests_sub (pending s') (pending s) ->
  wedged s rid ->
  wedged s' rid /\ length (recorders s') = length (recorders s) /\
  (capturing s' <= capturing s)%nat.
Proof.
  intros (Hr & Hm & Hi & Hsub) (Hrec & Hptr & Hin & Hnone).
  unfold wedged, capturing. rewrite Hr, Hm, Hi. split; [|done].
  split; [done|]. split; [done|]. split; [done|].
  intros t Ht. eapply Hnone, Hsub, Ht.
Qed.

Lemma step_wedged (s s' : state) (e : event) (rid : nat) :
  wedged s rid -> step s e = Some s' ->
  wedged s' rid /\ length (recorders s') = length (recorders s) /\
  (capturing s' <= capturing s)%nat.
Proof.
  intros Hw Hstep. pose proof Hw as (Hrec & Hm & Hin & Hnone).
  destruct e as [| | | | | | |tid r| |rid'];
    try (apply (wedged_frame s); [|exact Hw];
         eapply step_recorder_frame; [exact Hstep | first [exact I | apply Hnone]]).
  - cbn in Hstep. unfold micBtn_click, stopRecording in Hstep.
    rewrite Hrec, Hm, Hin in Hstep. by simplify_eq.
  - cbn [step] in Hstep. destruct (recorders s !! rid') eqn:Hrid'; simplify_eq.
    assert (<[rid' := RecInactive]> (recorders s) !! rid = Some RecInactive) as Hstill.
    { destruct (decide (rid' = rid)) as [->|Hne].
      - apply list_lookup_insert_eq. by apply lookup_lt_Some in Hin.
      - by rewrite list_lookup_insert_ne. }
    unfold sendAudioForTranscription, wedged, capturing.
    destruct (audioChunks (set_recorders (<[rid' := RecInactive]> (recorders s)) s));
      simpl; (split; [|split; [apply length_insert | apply capturing_stop]]);
      (split; [done|]); (split; [done|]); (split; [done|]).
    + done.
    + intros t Ht. apply lookup_insert_Some in Ht as [[_ ?]|[_ Ht]]; [done|].
      by apply Hnone in Ht.
Qed.

(** X7. Once [isRecording] is set while the recorder it points to is
    inactive and no device request is parked (the recorder ended without
    [stopRecording], as when the browser ends the stream), voice input stays
    dead for the rest of the page load: after any sequence of events
    [isRecording] is still set, no recorder has been created or started, and
    a click on the microphone changes nothing at all. *)
Theorem X7_toggle_stays_wedged (es : list event) (s s' : state) (rid : nat) :
  isRecording s = true ->
  mediaRecorder s = Some rid ->
  recorders s !! rid = Some RecInactive ->
  awaiting_device s = false ->
  run s es = Some s' ->
  isRecording s' = true /\ length (recorders s') = length (recorders s) /\
  (capturing s' <= capturing s)%nat /\ step s' MicClick = Some s'.
Proof.
  intros Hrec Hm Hin Hno Hrun.
  assert (wedged s rid) as Hw.
  { split; [done|]. split; [done|]. split; [done|].
    intros tid. by apply awaiting_device_false. }
  clear Hrec Hm Hin Hno. revert s Hw Hrun.
  induction es as [|e es IH]; intros s Hw Hrun; cbn in Hrun.
  - simplify_eq. destruct Hw as (Hrec & Hm & Hin & _).
    split; [done|]. split; [done|]. split; [done|].
    cbn. unfold micBtn_click, stopRecording. by rewrite Hrec, Hm, Hin.
  - destruct (step s e) as [s1|] eqn:Hstep; [|discriminate].
    destruct (step_wedged _ _ _ _ Hw Hstep) as (Hw1 & Hlen & Hcap).
    destruct (IH _ Hw1 Hrun) as (Hr' & Hlen' & Hcap' & Hclick).
    split; [done|]. split; [congruence|]. split; [lia | done].
Qed.

Lemma X7_toggle_stays_wedged_witness :
  run page recorder_ended_by_browser = Some wedged_page /\
  exists s',
    run wedged_page [MicClick; MicClick; Input (lit "Hello"); Submit; MicClick]
      = Some s' /\
    isRecording s' = true /\ capturing s' = 0%nat /\
    step s' MicClick = Some s'.
Proof.
  split; [vm_compute; reflexivity|].
  edestruct (X7_toggle_stays_wedged
               [MicClick; MicClick; Input (lit "Hello"); Submit; MicClick]
               wedged_page)
    as (Hr & _ & _ & Hclick);
    [reflexivity | reflexivity | reflexivity | reflexivity
    | vm_compute; reflexivity |].
  eexists. split; [vm_compute; reflexivity|].
  split; [exact Hr|]. split; [reflexivity | exact Hclick].
Defined.

(** ** Recording that cannot start (X6) *)

Lemma step_MicClick_start (s : state) :
  isRecording s = false -> has_getUserMedia (host s) = true ->
  step s MicClick
  = Some (suspend StartRecording_getUserMedia (emit GetUserMedia s)).
Proof.
  intros Hidle Hcan. cbn. unfold micBtn_click, startRecording.
  by rewrite Hidle, Hcan.
Qed.

Lemma step_MicClick_unsupported (s : state) :
  isRecording s = false -> has_getUserMedia (host s) = false ->
  step s MicClick
  = Some (alert "Your browser does not support audio recording." s).
Proof.
  intros Hidle Hno. cbn. unfold micBtn_click, startRecording.
  by rewrite Hidle, Hno.
Qed.

(** Only a click that starts recording asks for the device. *)
Lemma step_asks_device (s s' : state) (e : event) :
  step s e = Some s' ->
  (e = MicClick -> has_getUserMedia (host s) = false) ->
  List.filter asks_device (trace s') = List.filter asks_device (trace s).
Proof.
  intros Hstep Hmic.
  assert (forall x, chatForm_submit x = x \/
            exists a b, trace (chatForm_submit x) = (trace x ++ [Rendered a]) ++ [Fetch b])
    as Hsubmit.
  { intros x. unfold chatForm_submit.
    destruct (trim (messageInput_value x)); [by left|right]. eexists _, _. reflexivity. }
  destruct e; cbn [step] in Hstep.
  - simplify_eq. unfold micBtn_click, stopRecording, startRecording.
    rewrite (Hmic eq_refl).
    destruct (isRecording s).
    + destruct (mediaRecorder s) as [rid|]; [|done].
      destruct (recorders s !! rid) as [[]|]; done.
    + cbn. rewrite List.filter_app. cbn. by rewrite app_nil_r.
  - by simplify_eq.
  - simplify_eq. destruct (Hsubmit s) as [->|(a & b & ->)]; [done|].
    rewrite !List.filter_app. cbn. by rewrite !app_nil_r.
  - destruct (jstring_eqb key (lit "Enter") && negb shiftKey); simplify_eq; [|done].
    destruct (Hsubmit s) as [->|(a & b & ->)]; [done|].
    rewrite !List.filter_app. cbn. by rewrite !app_nil_r.
  - by simplify_eq.
  - simplify_eq. unfold fileUpload_change. cbn. destruct picked; [|done].
    cbn. rewrite List.filter_app. cbn. by rewrite app_nil_r.
  - destruct (chatWindow s !! i) as [[message []]|]; simplify_eq.
    cbn. rewrite List.filter_app. cbn. by rewrite app_nil_r.
  - destruct (pending s !! tid) as [t|] eqn:Hp; [|discriminate].
    destruct t; destruct r as [[]| |[]| | |];
      cbn [resume startRecording_resume transcribe_fetch_resume
           transcribe_json_resume chat_fetch_resume chat_errorJson_resume
           chat_json_resume speak_fetch_resume speak_json_resume
           upload_fetch_resume upload_json_resume host set_pending] in Hstep;
      try discriminate;
      try (destruct ok);
      repeat match type of Hstep with
             | context [Get ?p ?e ?b ?n] => destruct (Get p e b n)
             end;
      simplify_eq;
      try (cbn; rewrite ?List.filter_app; cbn; by rewrite ?app_nil_r).
    match goal with
    | |- context [chatForm_submit ?x] =>
        destruct (Hsubmit x) as [Hsame|(a1 & b1 & Hsent)]
    end.
    + cbn. by rewrite Hsame.
    + cbn. rewrite Hsent. rewrite !List.filter_app. cbn. by rewrite !app_nil_r.
  - by destruct (recorders s !! rid); simplify_eq.
  - destruct (recorders s !! rid); simplify_eq.
    unfold sendAudioForTranscription. cbn. destruct (audioChunks s); [done|].
    cbn. rewrite List.filter_app. cbn. by rewrite app_nil_r.
Qed.

Lemma step_never_recording (s s' : state) (e : event) :
  never_recording s -> step s e = Some s' -> never_recording s'.
Proof.
  intros (Hno & Hidle & Hrs & Hnone & Hdev) Hstep.
  destruct (step_effect _ _ _ Hstep) as (_ & _ & _ & _ & _ & Hhost & _).
  pose proof (step_asks_device _ _ _ Hstep (fun _ => Hno)) as Hdev'.
  unfold never_recording. rewrite Hhost, Hdev'.
  destruct e as [| | | | | | |tid r| |rid];
    try (destruct (step_recorder_frame _ _ _ Hstep ltac:(first [exact I | apply Hnone]))
           as (Hr & _ & Hi & Hsub);
         rewrite Hr, Hi; split_and!; try done;
         intros t Ht; by apply Hsub, Hnone in Ht).
  - rewrite (step_MicClick_unsupported _ Hidle Hno) in Hstep. by simplify_eq.
  - cbn [step] in Hstep. rewrite Hrs in Hstep. discriminate.
Qed.

(** X6. Recording that cannot start leaves the controller idle.  When the
    device request fails (the stream is denied, or [new MediaRecorder] or
    [start()] throws), the click and the failure together leave
    [isRecording] clear, the number of capturing recorders, the transcript
    and the indicator unchanged, and no task parked; their only effects are
    the device request, one console entry with the error and the alert
    asking for permission; this holds for every parked device request that
    fails.  In a browser without [getUserMedia], a click on the idle
    controller only alerts, requesting and parking nothing; and from page
    load on such a browser, after any sequence of events, [isRecording] is
    clear, no recorder exists, no device request is parked and the device
    was never asked for. *)
Theorem X6_failed_start_stays_idle :
  (forall s r m,
     has_getUserMedia (host s) = true -> isRecording s = false ->
     start_failure r = Some m ->
     exists s',
       run s [MicClick; Resume (next_task s) r] = Some s' /\
       isRecording s' = false /\ capturing s' = capturing s /\
       chatWindow s' = chatWindow s /\ loadingIndicator s' = loadingIndicator s /\
       pending s' !! next_task s = None /\
       trace s'
         = trace s
           ++ [GetUserMedia; ConsoleError (lit "Error accessing microphone:") m;
               Alert (lit "Could not access microphone. Please grant permission.")]) /\
  (forall s s' tid r m,
     pending s !! tid = Some StartRecording_getUserMedia ->
     start_failure r = Some m ->
     step s (Resume tid r) = Some s' ->
     isRecording s' = isRecording s /\ capturing s' = capturing s /\
     chatWindow s' = chatWindow s /\ loadingIndicator s' = loadingIndicator s /\
     pending s' = delete tid (pending s) /\
     trace s'
       = trace s
         ++ [ConsoleError (lit "Error accessing microphone:") m;
             Alert (lit "Could not access microphone. Please grant permission.")]) /\
  (forall s,
     has_getUserMedia (host s) = false -> isRecording s = false ->
     exists s',
       step s MicClick = Some s' /\
       pending s' = pending s /\ isRecording s' = false /\
       recorders s' = recorders s /\ chatWindow s' = chatWindow s /\
       trace s'
         = trace s ++ [Alert (lit "Your browser does not support audio recording.")]) /\
  (forall e s0 st es s,
     boot e = Normal (s0, st) ->
     has_getUserMedia (browser e) = false ->
     run s0 es = Some s ->
     isRecording s = false /\ recorders s = [] /\
     (forall tid, pending s !! tid <> Some StartRecording_getUserMedia) /\
     List.filter asks_device (trace s) = []).
Proof.
  split; [|split; [|split]].
  - intros s r m Hcan Hidle Hfail. cbn [run].
    rewrite (step_MicClick_start _ Hidle Hcan).
    assert (pending (suspend StartRecording_getUserMedia (emit GetUserMedia s))
              !! next_task s = Some StartRecording_getUserMedia) as Hparked
      by (cbn; apply lookup_insert_eq).
    destruct (step (suspend StartRecording_getUserMedia (emit GetUserMedia s))
                (Resume (next_task s) r)) as [s'|] eqn:Hstep.
    + destruct (startRecording_failure_step _ _ _ _ _ Hparked Hfail Hstep)
        as (Hi & Hc & Hw & Hl & Hp & Ht).
      exists s'. split; [reflexivity|].
      split; [rewrite Hi; exact Hidle|].
      split; [exact Hc|]. split; [exact Hw|]. split; [exact Hl|].
      split; [rewrite Hp; apply lookup_delete_eq|].
      rewrite Ht. cbn. by rewrite <- app_assoc.
    + exfalso. rewrite (step_Resume _ _ _ _ Hparked) in Hstep.
      destruct r as [[]| | | | |]; cbn in Hfail; simplify_eq; discriminate.
  - exact startRecording_failure_step.
  - intros s Hno Hidle. rewrite (step_MicClick_unsupported _ Hidle Hno).
    eexists. split; [reflexivity|]. cbn. split_and!; done.
  - intros e s0 st es s Hboot Hno Hrun.
    assert (never_recording s0) as Hinv0.
    { unfold boot in Hboot.
      destruct (getOrCreate e) as [[[sid fresh_session] st']|]; [|discriminate].
      simplify_eq. destruct fresh_session; (split; [exact Hno|]); cbn;
        split_and!; try done; intros tid; by rewrite lookup_empty. }
    clear Hboot. revert s0 Hinv0 Hrun.
    induction es as [|ev es IH]; intros s0 Hinv0 Hrun; cbn in Hrun.
    + simplify_eq. by destruct Hinv0 as (_ & ? & ? & ? & ?).
    + destruct (step s0 ev) as [s1|] eqn:Hstep; [|discriminate].
      eapply IH; [|exact Hrun]. eapply step_never_recording; eauto.
Qed.

Lemma X6_failed_start_stays_idle_witness :
  (exists s',
     run page [MicClick; Resume 0%nat (StreamDenied (lit "Permission denied"))]
       = Some s' /\
     isRecording s' = false /\ capturing s' = 0%nat /\ chatWindow s' = [] /\
     trace s'
       = [GetUserMedia;
          ConsoleError (lit "Error accessing microphone:") (lit "Permission denied");
          Alert (lit "Could not access microphone. Please grant permission.")]) /\
  boot legacy_visit = Normal (legacy_page, storage legacy_visit) /\
  (exists s',
     step legacy_page MicClick = Some s' /\ pending s' = ∅ /\
     trace s' = [Alert (lit "Your browser does not support audio recording.")]) /\
  (exists s,
     run legacy_page [MicClick; Input (lit "Hello"); Submit; MicClick] = Some s /\
     isRecording s = false /\ recorders s = [] /\
     List.filter asks_device (trace s) = []).
Proof.
  pose proof X6_failed_start_stays_idle as (Hfail & _ & Hold & Hnever).
  split; [|split; [reflexivity|split]].
  - destruct (Hfail page (StreamDenied (lit "Permission denied"))
                (lit "Permission denied") eq_refl eq_refl eq_refl)
      as (s' & Hrun & Hi & Hc & Hw & _ & _ & Ht).
    exists s'. split; [exact Hrun|]. split; [exact Hi|].
    split; [exact Hc|]. split; [exact Hw | exact Ht].
  - destruct (Hold legacy_page eq_refl eq_refl) as (s' & Hstep & Hp & _ & _ & _ & Ht).
    exists s'. split; [exact Hstep|]. split; [exact Hp | exact Ht].
  - eexists. split; [vm_compute; reflexivity|].
    match goal with
    | |- isRecording ?final = false /\ _ =>
        destruct (Hnever legacy_visit legacy_page (storage legacy_visit)
                    [MicClick; Input (lit "Hello"); Submit; MicClick] final)
          as (Hi & Hr & _ & Hd);
        [reflexivity | reflexivity | vm_compute; reflexivity |]
    end.
    split; [exact Hi|]. split; [exact Hr | exact Hd].
Defined.

(** ** Speaker buttons (X8) *)

Lemma run_keeps_messages (es : list event) (s s' : state) (i : nat) (m : Message) :
  run s es = Some s' -> chatWindow s !! i = Some m -> chatWindow s' !! i = Some m.
Proof.
  revert s. induction es as [|e es IH]; intros s Hrun Hi; cbn in Hrun.
  - by simplify_eq.
  - destruct (step s e) as [s1|] eqn:Hstep; [|discriminate].
    destruct (step_effect _ _ _ Hstep) as (ms & _ & Hc & _).
    apply (IH _ Hrun). rewrite Hc. by apply lookup_app_l_Some.
Qed.

(** X8. The speaker button of a Message stays bound to that Message: once
    the i-th Message is an assistant Message with value v, then after any
    further events a click on its speaker sends one synthesize request for
    exactly v, displays the indicator and leaves the transcript alone.  A
    user Message never has a speaker button. *)
Theorem X8_speaker_reads_its_message
    (es : list event) (s s' : state) (i : nat) (v : jsval) (by_ : Sender) :
  chatWindow s !! i = Some {| text := v; sender := by_ |} ->
  run s es = Some s' ->
  step s' (SpeakerClick i)
    = match by_ with
      | AI => Some (speakText v s')
      | User => None
      end /\
  trace (speakText v s') = trace s' ++ [Fetch (PostSynthesize v)] /\
  chatWindow (speakText v s') = chatWindow s' /\
  busy (speakText v s') = true.
Proof.
  intros Hi Hrun. cbn [step].
  rewrite (run_keeps_messages _ _ _ _ _ Hrun Hi). by destruct by_.
Qed.

Lemma X8_speaker_reads_its_message_witness :
  exists s1 s2,
    run (set_messageInput (lit "Hello") page)
        [Submit; Resume 0%nat (FetchFailed (lit "Failed to fetch"))] = Some s1 /\
    chatWindow s1 !! 1%nat
      = Some {| text := VString (lit "Error: Failed to fetch"); sender := AI |} /\
    run s1 [Input (lit "again"); Submit] = Some s2 /\
    step s2 (SpeakerClick 1%nat)
      = Some (speakText (VString (lit "Error: Failed to fetch")) s2) /\
    step s2 (SpeakerClick 0%nat) = None.
Proof.
  eexists _, _. split; [vm_compute; reflexivity|]. split; [reflexivity|].
  match goal with
  | |- run ?mid _ = Some _ /\ _ =>
      split; [vm_compute; reflexivity|]; split; [|reflexivity];
      match goal with
      | |- step ?final _ = _ =>
          refine (proj1 (X8_speaker_reads_its_message
                           [Input (lit "again"); Submit] mid final 1%nat
                           (VString (lit "Error: Failed to fetch")) AI _ _));
          [reflexivity | vm_compute; reflexivity]
      end
  end.
Defined.

(** ** No automatic retry (X9) *)

(** X9. No settlement makes the page send anything again: whatever promise
    settles and however, no request is issued and the device is not asked
    for, with the single exception of a transcription whose body was parsed
    and read, which chains into the chat.  In particular no failure of any
    operation, and no denial of the microphone, is retried. *)
Theorem X9_settlements_send_nothing
    (s s' : state) (tid : nat) (t : task) (r : settlement) :
  pending s !! tid = Some t ->
  (t = Transcribe_json -> transcription_of (host s) r = None) ->
  step s (Resume tid r) = Some s' ->
  List.filter outbound (trace s') = List.filter outbound (trace s).
Proof.
  intros Hp Hchain Hstep. rewrite (step_Resume _ _ _ _ Hp) in Hstep.
  destruct t; destruct r as [[]| |[]| | |];
    cbn [resume startRecording_resume transcribe_fetch_resume
         transcribe_json_resume chat_fetch_resume chat_errorJson_resume
         chat_json_resume speak_fetch_resume speak_json_resume
         upload_fetch_resume upload_json_resume host set_pending] in Hstep;
    try discriminate;
    try (destruct ok);
    try (specialize (Hchain eq_refl); cbn [transcription_of] in Hchain);
    repeat match goal with
           | H : context [Get ?p ?e ?b ?n] |- _ => destruct (Get p e b n)
           end;
    simplify_eq;
    cbn; rewrite ?outbound_app; cbn; rewrite ?app_nil_r; done.
Qed.

Lemma X9_settlements_send_nothing_witness :
  exists s',
    step (park 0%nat Chat_errorJson (set_display Flex page))
         (Resume 0%nat (BodyParsed (VObject [(lit "detail", VString (lit "boom"))])))
      = Some s' /\
    List.filter outbound (trace s') = [].
Proof.
  eexists. split; [reflexivity|].
  refine (X9_settlements_send_nothing
            (park 0%nat Chat_errorJson (set_display Flex page)) _ 0%nat
            Chat_errorJson
            (BodyParsed (VObject [(lit "detail", VString (lit "boom"))]))
            eq_refl _ eq_refl).
  intros Hc. discriminate Hc.
Defined.

(** ** Overlapping uploads (X10) *)

Lemma step_FileChange_some (s : state) (f : file) :
  step s (FileChange (Some f))
  = Some (suspend (Upload_fetch f)
            (emit (Fetch (PostUpload f)) (set_display Flex (set_files (Some f) s)))).
Proof. reflexivity. Qed.

(** X10. Each upload reports the file it was started with.  When a second
    file is picked while the first upload is still in flight, both uploads
    are sent; the first one settling empties the file control, which does
    not disturb the second; and each success Message names its own file, in
    the order the uploads settle. *)
Theorem X10_overlapping_uploads (s : state) (f1 f2 : file) (d1 d2 : jsval) :
  exists s',
    run s [FileChange (Some f1); FileChange (Some f2);
           Resume (next_task s) (Responded true);
           Resume (next_task s) (BodyParsed d1);
           Resume (S (next_task s)) (Responded true);
           Resume (S (next_task s)) (BodyParsed d2)] = Some s' /\
    trace s'
      = trace s
        ++ [Fetch (PostUpload f1); Fetch (PostUpload f2);
            Rendered {| text := VString (upload_success_text f1); sender := AI |};
            Rendered {| text := VString (upload_success_text f2); sender := AI |}] /\
    chatWindow s'
      = chatWindow s
        ++ [{| text := VString (upload_success_text f1); sender := AI |};
            {| text := VString (upload_success_text f2); sender := AI |}] /\
    fileUpload_files s' = None /\ busy s' = false.
Proof.
  cbn [run]. rewrite !step_FileChange_some.
  erewrite step_Resume
    by (cbn; rewrite lookup_insert_ne by lia; apply lookup_insert_eq).
  cbn [resume upload_fetch_resume].
  erewrite step_Resume by (rewrite park_after_delete; apply lookup_insert_eq).
  cbn [resume upload_json_resume].
  erewrite step_Resume
    by (cbn; rewrite lookup_delete_ne by lia; rewrite lookup_insert_ne by lia;
        rewrite lookup_delete_ne by lia; apply lookup_insert_eq).
  cbn [resume upload_fetch_resume].
  erewrite step_Resume by (rewrite park_after_delete; apply lookup_insert_eq).
  cbn [resume upload_json_resume].
  eexists. split; [reflexivity|]. cbn. rewrite <- !app_assoc. done.
Qed.

(** ** Bodies with a missing field (X11) *)

(** X11. A success body that parses to an object without the expected field
    is not treated as an error.  Without [transcription], the message box is
    set to the text "undefined", which is then submitted as the user's
    prompt and sent to the chat.  Without [response], one assistant Message
    is appended whose displayed text is empty.  Without [audio_url], the
    script still creates the audio element and calls [play], with
    [undefined] as source, and nothing is alerted or appended. *)
Theorem X11_missing_fields (s : state) (tid : nat) (props : list (jstring * jsval)) :
  (assoc (lit "transcription") props = None ->
   pending s !! tid = Some Transcribe_json ->
   exists s',
     step s (Resume tid (BodyParsed (VObject props))) = Some s' /\
     chatWindow s'
       = chatWindow s ++ [{| text := VString (lit "undefined"); sender := User |}] /\
     trace s'
       = trace s
         ++ [Rendered {| text := VString (lit "undefined"); sender := User |};
             Fetch (PostChat (lit "undefined") (sessionId s))]) /\
  (assoc (lit "response") props = None ->
   pending s !! tid = Some Chat_json ->
   exists s',
     step s (Resume tid (BodyParsed (VObject props))) = Some s' /\
     chatWindow s' = chatWindow s ++ [{| text := VUndefined; sender := AI |}] /\
     textContent VUndefined = [] /\ busy s' = false) /\
  (assoc (lit "audio_url") props = None ->
   pending s !! tid = Some Speak_json ->
   exists s',
     step s (Resume tid (BodyParsed (VObject props))) = Some s' /\
     trace s' = trace s ++ [PlayAudio VUndefined] /\
     chatWindow s' = chatWindow s /\ busy s' = false).
Proof.
  split; [|split]; intros Hmiss Hp; rewrite (step_Resume _ _ _ _ Hp).
  - cbn [resume transcribe_json_resume]. unfold Get. rewrite Hmiss.
    rewrite chatForm_submit_nonempty by (vm_compute; discriminate).
    eexists. split; [reflexivity|]. cbn -[trim lit toDOMString].
    change (trim (toDOMString VUndefined)) with (lit "undefined").
    rewrite <- app_assoc. done.
  - cbn [resume chat_json_resume]. unfold Get. rewrite Hmiss.
    eexists. split; [reflexivity|]. done.
  - cbn [resume speak_json_resume]. unfold Get. rewrite Hmiss.
    eexists. split; [reflexivity|]. done.
Qed.

Lemma X11_missing_fields_witness :
  exists s',
    step (park 1%nat Transcribe_json (set_next_task 2%nat (set_display Flex page)))
         (Resume 1%nat (BodyParsed (VObject [(lit "text", VString (lit "Hello"))])))
      = Some s' /\
    chatWindow s' = [{| text := VString (lit "undefined"); sender := User |}] /\
    trace s' = [Rendered {| text := VString (lit "undefined"); sender := User |};
                Fetch (PostChat (lit "undefined") stored_token)].
Proof.
  exact (proj1 (X11_missing_fields
                  (park 1%nat Transcribe_json
                     (set_next_task 2%nat (set_display Flex page)))
                  1%nat [(lit "text", VString (lit "Hello"))])
           eq_refl eq_refl).
Defined.

(** ** Overlapping operations and the indicator (X12) *)

(** X12. The indicator is one shared flag: when two operations are in flight
    and one of them settles, the indicator is hidden although the other
    operation is still in flight. *)
Theorem X12_first_to_settle_hides_indicator
    (s s' : state) (tid other : nat) (t t2 : task) (r : settlement) :
  pending s !! tid = Some t -> is_operation t = true ->
  pending s !! other = Some t2 -> is_operation t2 = true ->
  tid <> other ->
  step s (Resume tid r) = Some s' ->
  pending s' !! tid = None ->
  busy s' = false /\
  exists t2', pending s' !! other = Some t2' /\ is_operation t2' = true.
Proof.
  intros Hp Ht Hp2 Ht2 Hne Hstep Hgone.
  assert (delete tid (pending s) !! other = Some t2) as Hkept
    by (by rewrite lookup_delete_ne).
  rewrite (step_Resume _ _ _ _ Hp) in Hstep.
  destruct t; try discriminate; destruct r as [[]| |[]| | |];
    cbn [resume transcribe_fetch_resume transcribe_json_resume
         chat_fetch_resume chat_errorJson_resume chat_json_resume
         speak_fetch_resume speak_json_resume upload_fetch_resume
         upload_json_resume host set_pending] in Hstep;
    try discriminate;
    try (destruct ok);
    repeat match type of Hstep with
           | context [Get ?p ?e ?b ?n] => destruct (Get p e b n)
           end;
    simplify_eq;
    try (rewrite park_after_delete, lookup_insert_eq in Hgone; discriminate);
    (split; [reflexivity|]);
    try (exists t2; split; [exact Hkept | exact Ht2]).
  (* a parsed transcription: the chained chat may have been parked *)
  unfold chatForm_submit.
  match goal with
  | |- context [match ?x with [] => _ | _ :: _ => _ end] => destruct x
  end; cbn.
  - by exists t2.
  - destruct (decide (next_task s = other)) as [->|Hfresh].
    + exists Chat_fetch. by rewrite lookup_insert_eq.
    + exists t2. by rewrite lookup_insert_ne.
Qed.

Lemma X12_first_to_settle_hides_indicator_witness :
  exists s',
    step chat_and_upload_in_flight
         (Resume 1%nat (FetchFailed (lit "Failed to fetch"))) = Some s' /\
    busy s' = false /\
    exists t2', pending s' !! 0%nat = Some t2' /\ is_operation t2' = true.
Proof.
  eexists. split; [reflexivity|].
  apply (X12_first_to_settle_hides_indicator chat_and_upload_in_flight _
           1%nat 0%nat (Upload_fetch notes_pdf) Chat_fetch
           (FetchFailed (lit "Failed to fetch")));
    [reflexivity | reflexivity | reflexivity | reflexivity | lia
    | reflexivity | reflexivity].
Defined.

(** ** Submitting twice (X13) *)

(** X13. Submitting is idempotent: the handler empties the message box
    before it sends, so a second submit (by the form or by Enter) with
    nothing newly typed changes nothing: no second Message, no second
    request. *)
Theorem X13_submit_idempotent (s s1 : state) :
  step s Submit = Some s1 ->
  step s1 Submit = Some s1 /\
  step s1 (KeyDown (lit "Enter") false) = Some s1 /\
  chat_requests (trace s1) = chat_requests (trace s) ++
    match trim (messageInput_value s) with
    | [] => []
    | m => [(m, sessionId s)]
    end.
Proof.
  intros Hstep. cbn in Hstep. simplify_eq. cbn.
  assert (chatForm_submit (chatForm_submit s) = chatForm_submit s) as Hidem.
  { destruct (trim (messageInput_value s)) eqn:Hm.
    - rewrite (chatForm_submit_empty s Hm). by apply chatForm_submit_empty.
    - apply chatForm_submit_empty.
      rewrite chatForm_submit_nonempty by (rewrite Hm; discriminate).
      reflexivity. }
  rewrite Hidem. split; [done|]. split; [done|].
  unfold chatForm_submit.
  destruct (trim (messageInput_value s)); cbn.
  - by rewrite app_nil_r.
  - rewrite !chat_requests_app. cbn. by rewrite app_nil_r.
Qed.

Lemma X13_submit_idempotent_witness :
  exists s1,
    step (set_messageInput (lit " Hello ") page) Submit = Some s1 /\
    step s1 Submit = Some s1 /\
    chat_requests (trace s1) = [(lit "Hello", stored_token)].
Proof.
  eexists. split; [reflexivity|].
  destruct (X13_submit_idempotent (set_messageInput (lit " Hello ") page) _ eq_refl)
    as (Hagain & _ & Hreq).
  split; [exact Hagain | exact Hreq].
Defined.
